(** * internal/database/sqlite.go: the SQLite connection provider

    A shallow embedding of the package's SQLite side: the path resolver
    [getSqlitePath], the provider [sqlite] with its [Connect] method, the
    test wrapper [TestSQLiteDB] with [Close], and the error classifier
    [SqliteUniqueViolation].

    Go strings are byte sequences and are modelled by [string]; maps
    (the process environment, the file system, the gauge vector) are
    [gmap]s; calls into the platform (database/sql, go-sqlite3, os) are
    run in a state monad over a [World] and leave an [Event] in its
    trace, their outcome being chosen by a [Platform] of oracles. *)

From Stdlib Require Import ZArith String Ascii List Bool Lia.
From stdpp Require Import base option gmap strings list.

Import ListNotations.
Local Open Scope string_scope.
Local Open Scope Z_scope.

(** ** Package [strings] *)

Module strings.

(** [strings.HasPrefix(s, prefix)]. *)
Fixpoint HasPrefix (s prefix : string) {struct prefix} : bool :=
  match prefix with
  | EmptyString => true
  | String c prefix' =>
      match s with
      | EmptyString => false
      | String d s' => Ascii.eqb c d && HasPrefix s' prefix'
      end
  end.

(** [strings.Contains(s, substr)]: [substr] occurs at some offset of [s]. *)
Fixpoint Contains (s substr : string) : bool :=
  HasPrefix s substr ||
  match s with
  | EmptyString => false
  | String _ s' => Contains s' substr
  end.

(** What [Contains] decides. *)
Definition occurs_in (substr s : string) : Prop :=
  exists before after : string, s = before +:+ substr +:+ after.

End strings.

(** ** Errors

    A Go [error] is an interface value: [nil], or a value of some dynamic
    type with an [Error() string] method. The package only ever calls
    [Error()] and asserts the dynamic type [sqlite3.Error], so a non-nil
    error is either a [sqlite3.Error] or a value of any other type, known
    by the text its [Error()] returns. *)

Module sqlite3.

Definition ErrNo := Z.
Definition ErrNoExtended := Z.

(** [sqlite3.ErrConstraint], SQLITE_CONSTRAINT. *)
Definition ErrConstraint : ErrNo := 19.

(** [sqlite3.Error]; [err] holds the text that its [Error()] method
    returns. *)
Record Error : Type := mkError {
  Code : ErrNo;
  ExtendedCode : ErrNoExtended;
  err : string
}.

End sqlite3.

Inductive error_value : Type :=
| SqliteError (e : sqlite3.Error)
| OtherError (msg : string).

(** The interface type [error]: [None] is [nil]. *)
Definition goerror : Type := option error_value.

(** [err.Error()] on a non-nil error. *)
Definition Error (e : error_value) : string :=
  match e with
  | SqliteError e => sqlite3.err e
  | OtherError msg => msg
  end.

(** [e, ok := err.(sqlite3.Error)]. *)
Definition as_sqlite3_Error (e : error_value) : option sqlite3.Error :=
  match e with
  | SqliteError e => Some e
  | OtherError _ => None
  end.

(** [fmt.Errorf(prefix + "%v", err)] for a non-nil [err]: a fresh error of
    fmt's own type whose text is the prefix followed by [err.Error()]. *)
Definition fmt_Errorf_v (prefix : string) (e : error_value) : error_value :=
  OtherError (prefix +:+ Error e).

(** ** Error classifier *)

(** [SqliteUniqueViolation(err)]. The result is [None] when the call
    panics: [err.Error()] on a nil interface value is a nil dereference. *)
Definition SqliteUniqueViolation (err : goerror) : option bool :=
  match err with
  | None => None
  | Some v =>
      let match_ := strings.Contains (Error v) "UNIQUE constraint failed" in
      match as_sqlite3_Error v with
      | Some e => Some (match_ || (sqlite3.Code e =? sqlite3.ErrConstraint))
      | None => Some match_
      end
  end.

(** *** The classifier on every value of the interface type

    A value of the interface type [error] need not have a text: it is
    [nil], or it holds a value whose [Error()] returns ([error_value]), or
    it holds a value whose [Error()] panics, such as a nil
    [*sqlite3.Error] (the method has a value receiver, so the call
    dereferences the nil pointer). *)

Module Interface.

Inductive t : Type :=
| nil
| value (v : error_value)
| panicking.

(** [err.Error()]; [None] when the call panics. *)
Definition Error (err : t) : option string :=
  match err with
  | nil => None
  | value v => Some (Error v)
  | panicking => None
  end.

(** [e, ok := err.(sqlite3.Error)]; a pointer to a [sqlite3.Error] is of
    another dynamic type. *)
Definition as_sqlite3_Error (err : t) : option sqlite3.Error :=
  match err with
  | value v => as_sqlite3_Error v
  | _ => None
  end.

(** [SqliteUniqueViolation(err)], line by line; [None] when the call
    panics. *)
Definition SqliteUniqueViolation (err : t) : option bool :=
  match Error err with
  | None => None
  | Some text =>
      let match_ := strings.Contains text "UNIQUE constraint failed" in
      match as_sqlite3_Error err with
      | Some e => Some (match_ || (sqlite3.Code e =? sqlite3.ErrConstraint))
      | None => Some match_
      end
  end.

(** The errors that are [nil] or have a text, as interface values. *)
Definition of_goerror (err : goerror) : t :=
  match err with
  | None => nil
  | Some v => value v
  end.

End Interface.

(** ** Path resolver *)

(** [os.Getenv(key)]: the empty string when the variable is unset. *)
Definition os_Getenv (environ : gmap string string) (key : string) : string :=
  default "" (environ !! key).

(** [getSqlitePath()], reading the process environment [environ]. *)
Definition getSqlitePath (environ : gmap string string) : string :=
  let path := os_Getenv environ "SQLITE_DB_PATH" in
  if (String.eqb path "") || strings.Contains path ".."
  then "customers.db"
  else path.

(** ** Handles, statistics, gauges, loggers *)

(** A [*sql.DB]: the handle's identity and the data source it was opened
    on. *)
Record sql_DB : Type := mkDB {
  db_id : nat;
  db_dsn : string
}.

(** [sql.DBStats], the fields the package reads. *)
Record DBStats : Type := mkDBStats {
  OpenConnections : Z;
  InUse : Z;
  Idle : Z
}.

(** [float64(n)] for an [int] [n]. *)
Inductive float64 : Type :=
| float64_of_int (n : Z).

(** A [*kitprom.Gauge]: the metric and the label values bound so far. *)
Record Gauge : Type := mkGauge {
  gauge_name : string;
  lvs : list string
}.

(** [g.With(labelValues...)]. *)
Definition Gauge_With (g : Gauge) (labelValues : list string) : Gauge :=
  mkGauge (gauge_name g) (lvs g ++ labelValues).

(** The package gauge vector [sqliteConnections]. *)
Definition sqliteConnections : Gauge := mkGauge "sqlite_connections" [].

(** A non-nil [log.Logger], known by its identity. *)
Definition Logger : Type := nat.

(** [time.Duration], in nanoseconds. *)
Definition Duration : Type := Z.
Definition time_Nanosecond : Duration := 1.
Definition time_Microsecond : Duration := 1000 * time_Nanosecond.
Definition time_Millisecond : Duration := 1000 * time_Microsecond.
Definition time_Second : Duration := 1000 * time_Millisecond.
Definition time_Minute : Duration := 60 * time_Second.

(** ** The provider *)

Record sqlite : Type := mkSqlite {
  path : string;
  connections : Gauge;
  logger : Logger;
  err : goerror
}.

(** [sqliteConnection(logger, path)]: the composite literal leaves [err]
    at its zero value. *)
Definition sqliteConnection (logger : Logger) (path : string) : sqlite :=
  {| path := path;
     logger := logger;
     connections := sqliteConnections;
     err := None |}.

(** [TestSQLiteDB]; [CreateTestSqliteDB] only builds it around the handle
    of a successful [Connect]. *)
Record TestSQLiteDB : Type := mkTestSQLiteDB {
  DB : sql_DB;
  dir : string
}.

(** ** Migrations *)

(** Modelled from the spec: [execsql] is defined in another file of the
    package; it builds a Migration Step, "an immutable named unit of
    schema change: {name, statement}". *)
Record Migration : Type := execsql {
  Name : string;
  statement : string
}.

(** The ordered steps registered in [sqliteMigrator]. *)
Definition sqliteMigrator : list Migration := [
  execsql "create_customers"
    "create table if not exists customers(customer_id primary key, first_name, middle_name, last_name, nick_name, suffix, birth_date datetime, status, email, created_at datetime, last_modified datetime, deleted_at datetime);";
  execsql "create_customers_phones"
    "create table if not exists customers_phones(customer_id, number, valid, type, unique (customer_id, number) on conflict abort);";
  execsql "create_customers_addresses"
    "create table if not exists customers_addresses(address_id primary key, customer_id, type, address1, address2, city, state, postal_code, country, validated, active, unique (customer_id, address1) on conflict abort);";
  execsql "create_customer_metadata"
    "create table if not exists customer_metadata(customer_id, meta_key, meta_value, unique(meta_key, meta_value));";
  execsql "customer_status_updates"
    "create table if not exists customer_status_updates(customer_id, future_status, comment, changed_at datetime);";
  execsql "create_customer_ofac_searches"
    "create table if not exists customer_ofac_searches(customer_id, entity_id, sdn_name, sdn_type, match, created_at datetime);";
  execsql "create_customer_ssn"
    "create table if not exists customer_ssn(customer_id primary key, ssn, ssn_masked, created_at datetime);";
  execsql "create_documents"
    "create table if not exists documents(document_id primary key, customer_id, type, content_type, uploaded_at datetime);";
  execsql "create_disclaimers"
    "create table if not exists disclaimers(disclaimer_id primary key, text, document_id, created_at datetime, deleted_at datetime);";
  execsql "create_disclaimer_acceptances"
    "create table if not exists disclaimer_acceptances(disclaimer_id, customer_id, accepted_at datetime, unique(disclaimer_id, customer_id) on conflict ignore);";
  execsql "create_outbound_emails"
    "create table if not exists outbound_emails(email_id, customer_id, to_address, body, created_at datetime, sent_at datetime, deleted_at datetime);";
  execsql "create_email_activation_codes"
    "create table if not exists email_activation_codes(email_id, hash, created_at datetime, clicked_at datetime, deleted_at datetime);"
].

(** A database file. Its contents are determined by the statements that
    were executed on it, oldest first; the Migration Ledger is the table
    of applied step names ([None] until the table is created). *)
Record Database : Type := mkDatabase {
  ledger : option (list string);
  applied : list string
}.

Definition empty_database : Database := mkDatabase None [].

(** The ledger's rows. *)
Definition ledger_rows (d : Database) : list string := default [] (ledger d).

Inductive File : Type :=
| Directory
| DatabaseFile (d : Database).

(** ** The world *)

(** A background task started with [go]: the Metrics Reporter of a
    provider, bound to a handle, with the period of its ticker. *)
Record Goroutine : Type := mkGoroutine {
  task_provider : sqlite;
  task_db : sql_DB;
  task_period : Duration
}.

(** What the process did to the platform, with what came back. *)
Inductive Event : Type :=
| EvVersion (libVersion : string)
| EvLog (l : Logger) (keyvals : list string)
| EvOpen (dataSourceName : string) (r : error_value + sql_DB)
| EvPing (db : sql_DB) (r : goerror)
| EvLedgerEnsure (db : sql_DB)
| EvLedgerLookup (db : sql_DB) (name : string) (found : bool)
| EvExec (db : sql_DB) (stmt : string) (r : goerror)
| EvLedgerRecord (db : sql_DB) (name : string)
| EvMigrate (db : sql_DB) (r : goerror)
| EvGo (g : Goroutine)
| EvStats (db : sql_DB) (stats : DBStats)
| EvGaugeSet (g : Gauge) (v : float64)
| EvClose (db : sql_DB) (r : goerror)
| EvRemoveAll (path : string) (r : goerror).

Record World : Type := mkWorld {
  sqliteVersionLogOnce : bool;                   (* the sync.Once has fired *)
  opened : nat;                                  (* handles created so far *)
  fs : gmap string File;                         (* files by path *)
  gauges : gmap (string * list string) float64;  (* gauge values by metric and labels *)
  trace : list Event                             (* oldest first *)
}.

(** The outcomes the platform chooses. An oracle may look at the whole
    world, so any deterministic platform is covered; the outcome of a
    statement depends on the statement and the database it runs on. *)
Record Platform : Type := mkPlatform {
  Version_result : World -> string * Z * string;
  Open_result : string -> string -> World -> goerror;
  Ping_result : sql_DB -> World -> goerror;
  Exec_result : string -> Database -> goerror;
  Stats_result : sql_DB -> World -> DBStats;
  Close_result : sql_DB -> World -> goerror;
  (* [None]: everything was removed; otherwise the error and the paths
     that were removed before it *)
  RemoveAll_result : string -> World -> option (error_value * gset string)
}.

(** The state monad of the process. *)
Definition M (A : Type) : Type := World -> A * World.

Definition ret {A : Type} (a : A) : M A := fun w => (a, w).

Definition bind {A B : Type} (m : M A) (k : A -> M B) : M B :=
  fun w => let (a, w') := m w in k a w'.

Notation "'let*' x ':=' m 'in' k" := (bind m (fun x => k))
  (at level 10, x name, m at level 100, k at level 200).
Notation "m '>>' k" := (bind m (fun _ => k))
  (at level 62, right associativity).

Definition set_once (b : bool) (w : World) : World :=
  mkWorld b (opened w) (fs w) (gauges w) (trace w).
Definition set_opened (n : nat) (w : World) : World :=
  mkWorld (sqliteVersionLogOnce w) n (fs w) (gauges w) (trace w).
Definition set_fs (f : gmap string File) (w : World) : World :=
  mkWorld (sqliteVersionLogOnce w) (opened w) f (gauges w) (trace w).
Definition set_gauges (g : gmap (string * list string) float64) (w : World) : World :=
  mkWorld (sqliteVersionLogOnce w) (opened w) (fs w) g (trace w).

(** Append an event to the trace. *)
Definition record (e : Event) (w : World) : World :=
  mkWorld (sqliteVersionLogOnce w) (opened w) (fs w) (gauges w) (trace w ++ [e]).

(** The same, as a step of the process. *)
Definition emit (e : Event) : M unit :=
  fun w => (tt, record e w).

(** The world a process starts in, on a given file system. *)
Definition process_start (files : gmap string File) : World :=
  mkWorld false 0 files ∅ [].

(** [p] is [root] or lies under it. *)
Definition within (root p : string) : bool :=
  String.eqb p root || strings.HasPrefix p (root +:+ "/").

(** The database behind a data source: a file that does not exist yet is
    created empty by the engine. *)
Definition database_at (w : World) (dsn : string) : Database :=
  match fs w !! dsn with
  | Some (DatabaseFile d) => d
  | _ => empty_database
  end.

(** Write the database behind a data source back to its file. *)
Definition store_database (dsn : string) (d : Database) : M unit :=
  fun w => (tt, set_fs (<[dsn := DatabaseFile d]> (fs w)) w).

Section Process.

Variable P : Platform.

(** *** Platform calls *)

(** [sqlite3.Version()]. *)
Definition sqlite3_Version : M (string * Z * string) :=
  fun w => let v := Version_result P w in (v, record (EvVersion v.1.1) w).

(** [logger.Log(keyvals...)]; its error is dropped by the caller. *)
Definition Log (l : Logger) (keyvals : list string) : M unit :=
  emit (EvLog l keyvals).

(** [sql.Open(driverName, dataSourceName)]: an error, or a new handle. *)
Definition sql_Open (driverName dataSourceName : string) : M (error_value + sql_DB) :=
  fun w =>
    match Open_result P driverName dataSourceName w with
    | Some e => (inl e, record (EvOpen dataSourceName (inl e)) w)
    | None =>
        let db := mkDB (opened w) dataSourceName in
        (inr db, record (EvOpen dataSourceName (inr db)) (set_opened (S (opened w)) w))
    end.

(** [db.Ping()]. *)
Definition Ping (db : sql_DB) : M goerror :=
  fun w => let r := Ping_result P db w in (r, record (EvPing db r) w).

(** [db.Stats()]. *)
Definition Stats (db : sql_DB) : M DBStats :=
  fun w => let st := Stats_result P db w in (st, record (EvStats db st) w).

(** [db.Close()]. *)
Definition Close (db : sql_DB) : M goerror :=
  fun w => let r := Close_result P db w in (r, record (EvClose db r) w).

(** [os.RemoveAll(path)]: removes [path] and what is under it, as far
    as the platform lets it. *)
Definition os_RemoveAll (path : string) : M goerror :=
  fun w =>
    match RemoveAll_result P path w with
    | None =>
        let fs' := filter (fun kv => within path kv.1 = false) (fs w) in
        (None, record (EvRemoveAll path None) (set_fs fs' w))
    | Some (e, removed) =>
        let fs' := filter (fun kv => ¬ (within path kv.1 = true ∧ kv.1 ∈ removed)) (fs w) in
        (Some e, record (EvRemoveAll path (Some e)) (set_fs fs' w))
    end.

(** [g.Set(v)]. *)
Definition Gauge_Set (g : Gauge) (v : float64) : M unit :=
  fun w => (tt, record (EvGaugeSet g v) (set_gauges (<[(gauge_name g, lvs g) := v]> (gauges w)) w)).

(** [go f()]. *)
Definition go (g : Goroutine) : M unit := emit (EvGo g).

(** [once.Do(f)] on [sqliteVersionLogOnce]: [f] runs if the gate has
    not fired, and the gate is marked as fired when [f] returns. *)
Definition sqliteVersionLogOnce_Do (f : M unit) : M unit :=
  fun w =>
    if sqliteVersionLogOnce w then (tt, w)
    else let (u, w') := f w in (u, set_once true w').

(** *** Migration Engine *)

(** Modelled from the spec: the first thing [Migrate] does is to
    "ensure the Migration Ledger table exists". *)
Definition ensure_ledger (db : sql_DB) : M unit :=
  fun w =>
    let d := database_at w (db_dsn db) in
    (emit (EvLedgerEnsure db) >>
     match ledger d with
     | Some _ => ret tt
     | None => store_database (db_dsn db) (mkDatabase (Some []) (applied d))
     end) w.

(** Modelled from the spec: "check whether its name is already recorded
    in the ledger". *)
Definition ledger_lookup (db : sql_DB) (name : string) : M bool :=
  fun w =>
    let found := bool_decide (name ∈ ledger_rows (database_at w (db_dsn db))) in
    (emit (EvLedgerLookup db name found) >> ret found) w.

(** Modelled from the spec: "execute the step's statement and record the
    name, both inside a single local transaction-like unit so a step's
    effect and its ledger entry land together -- if the statement fails,
    abort and return the underlying error without marking the step
    applied". *)
Definition apply_step (db : sql_DB) (m : Migration) : M goerror :=
  fun w =>
    let d := database_at w (db_dsn db) in
    match Exec_result P (statement m) d with
    | Some e => (emit (EvExec db (statement m) (Some e)) >> ret (Some e)) w
    | None =>
        (emit (EvExec db (statement m) None) >>
         emit (EvLedgerRecord db (Name m)) >>
         store_database (db_dsn db)
           (mkDatabase (Some (ledger_rows d ++ [Name m])%list) (applied d ++ [statement m])%list) >>
         ret None) w
    end.

(** Modelled from the spec: "for each step in registration order ...
    If a step is already recorded, it is skipped unconditionally". *)
Fixpoint migrate_steps (db : sql_DB) (steps : list Migration) : M goerror :=
  match steps with
  | [] => ret None
  | m :: rest =>
      let* found := ledger_lookup db (Name m) in
      if found then migrate_steps db rest
      else
        let* e := apply_step db m in
        match e with
        | Some e => ret (Some e)
        | None => migrate_steps db rest
        end
  end.

(** Modelled from the spec: [Migrate] of the migration library, which is
    not part of the package's files, as section 4.2 describes it. *)
Definition Migrate (steps : list Migration) (db : sql_DB) : M goerror :=
  ensure_ledger db >>
  let* e := migrate_steps db steps in
  emit (EvMigrate db e) >>
  ret e.

(** *** Metrics Reporter *)

(** The body of the reporter's loop, run at each tick. *)
Definition metricsReporter_tick (s : sqlite) (db : sql_DB) : M unit :=
  let* stats := Stats db in
  Gauge_Set (Gauge_With (connections s) ["state"; "idle"]) (float64_of_int (Idle stats)) >>
  Gauge_Set (Gauge_With (connections s) ["state"; "inuse"]) (float64_of_int (InUse stats)) >>
  Gauge_Set (Gauge_With (connections s) ["state"; "open"]) (float64_of_int (OpenConnections stats)).

(** The goroutine [Connect] starts: [time.NewTicker(1 * time.Minute)] and
    the loop over its channel. *)
Definition metricsReporter (s : sqlite) (db : sql_DB) : Goroutine :=
  mkGoroutine s db (1 * time_Minute).

(** A goroutine that receives [ticks] ticks. *)
Fixpoint run_goroutine (g : Goroutine) (ticks : nat) : M unit :=
  match ticks with
  | O => ret tt
  | S n => metricsReporter_tick (task_provider g) (task_db g) >> run_goroutine g n
  end.

(** *** Connect *)

(** The guarded action. *)
Definition logVersion (s : sqlite) : M unit :=
  let* v := sqlite3_Version in
  if negb (String.eqb v.1.1 "")
  then Log (logger s) ["main"; "sqlite version " +:+ v.1.1]
  else ret tt.

(** [(s *sqlite) Connect()]: the handle ([None] is [nil]) and the
    error. The [err] of the final [return db, err] is the one of
    [sql.Open], nil at that point. *)
Definition Connect (s : sqlite) : M (option sql_DB * goerror) :=
  match err s with
  | Some e => ret (None, Some (fmt_Errorf_v "sqlite had error " e))
  | None =>
      sqliteVersionLogOnce_Do (logVersion s) >>
      let* r := sql_Open "sqlite3" (path s) in
      match r with
      | inl e => ret (None, Some e)
      | inr db =>
          let* e := Ping db in
          match e with
          | Some e => ret (Some db, Some e)
          | None =>
              let* e := Migrate sqliteMigrator db in
              match e with
              | Some e => ret (Some db, Some e)
              | None =>
                  go (metricsReporter s db) >>
                  ret (Some db, None)
              end
          end
      end
  end.

(** *** Test harness *)

(** [(r *TestSQLiteDB) Close()]. *)
Definition TestSQLiteDB_Close (r : TestSQLiteDB) : M goerror :=
  let* e := Close (DB r) in
  match e with
  | Some e => ret (Some e)
  | None => os_RemoveAll (dir r)
  end.

(** Successive [Connect] calls, in order. *)
Fixpoint connect_all (ss : list sqlite) : M (list (option sql_DB * goerror)) :=
  match ss with
  | [] => ret []
  | s :: rest =>
      let* r := Connect s in
      let* rs := connect_all rest in
      ret (r :: rs)
  end.

End Process.

(** ** The constructor of the test harness *)

(** What the platform of a test chooses: the directory that
    [ioutil.TempDir] creates, or its error, and the path that
    [filepath.Join] builds. *)
Record TestPlatform : Type := mkTestPlatform {
  TempDir_result : string -> string -> World -> error_value + string;
  filepath_Join : string -> string -> string
}.

(** [log.NewNopLogger()]. The calls of its [Log] are events like those of
    any logger; it is the logger that drops them. *)
Definition log_NewNopLogger : Logger := 0%nat.

Section TestHarness.

Variable P : Platform.
Variable T : TestPlatform.

(** [ioutil.TempDir(dir, prefix)]: an error, or the name of the directory
    it created. *)
Definition ioutil_TempDir (dir prefix : string) : M (error_value + string) :=
  fun w =>
    match TempDir_result T dir prefix w with
    | inl e => (inl e, w)
    | inr name => (inr name, set_fs (<[name := Directory]> (fs w)) w)
    end.

(** [CreateTestSqliteDB(t)]. [inl msg]: the test was stopped by
    [t.Fatalf] with the message [msg]; [inr (db, dir)]: the fields of the
    [&TestSQLiteDB{db, dir}] it returned. *)
Definition CreateTestSqliteDB : M (string + (option sql_DB * string)) :=
  let* r := ioutil_TempDir "" "customers-sqlite" in
  match r with
  | inl e => ret (inl ("sqlite test: " +:+ Error e))
  | inr dir =>
      let* c := Connect P (sqliteConnection log_NewNopLogger
                             (filepath_Join T dir "customers.db")) in
      match c.2 with
      | Some e => ret (inl ("sqlite test: " +:+ Error e))
      | None => ret (inr (c.1, dir))
      end
  end.

End TestHarness.

(** ** Scenarios

    Concrete platforms and worlds on which the statements below are
    exercised. *)

Module Scenario.

(** Every platform call succeeds. *)
Definition healthy : Platform :=
  mkPlatform
    (fun _ => ("3.30.1", 3030001, "2019-10-10"))
    (fun _ _ _ => None)
    (fun _ _ => None)
    (fun _ _ => None)
    (fun _ _ => mkDBStats 3 1 2)
    (fun _ _ => None)
    (fun _ _ => None).

Definition disk_full : error_value := OtherError "database or disk is full".
Definition busy : error_value := OtherError "handle is busy".

(** The engine does not report its version and cannot be reached. *)
Definition unreachable : Platform :=
  mkPlatform
    (fun _ => ("", 0, ""))
    (fun _ _ _ => None)
    (fun _ _ => Some disk_full)
    (fun _ _ => None)
    (fun _ _ => mkDBStats 0 0 0)
    (fun _ _ => Some busy)
    (fun _ _ => None).

Definition duplicate_acceptance : error_value :=
  SqliteError
    (sqlite3.mkError 19 2067
       "UNIQUE constraint failed: disclaimer_acceptances.disclaimer_id, disclaimer_acceptances.customer_id").

Definition provider : sqlite := sqliteConnection 7%nat "customers.db".

Definition failed_provider : sqlite :=
  mkSqlite "customers.db" sqliteConnections 7%nat (Some (OtherError "bad config")).

Definition handle : sql_DB := mkDB 0 "customers.db".

Definition harness : TestSQLiteDB :=
  mkTestSQLiteDB (mkDB 0 "/tmp/customers-sqlite1/customers.db") "/tmp/customers-sqlite1".

Definition harness_files : gmap string File :=
  {[ "/tmp/customers-sqlite1" := Directory;
     "/tmp/customers-sqlite1/customers.db" := DatabaseFile empty_database;
     "/tmp/customers-sqlite12" := Directory ]}.

End Scenario.

(** A platform of tests that creates "/tmp/customers-sqlite1". *)
Module TestScenario.

Definition tmp : TestPlatform :=
  mkTestPlatform
    (fun _ _ _ => inr "/tmp/customers-sqlite1")
    (fun dir name => dir +:+ "/" +:+ name).

Definition no_tmp : TestPlatform :=
  mkTestPlatform
    (fun _ _ _ => inl (OtherError "mkdir /tmp: read-only file system"))
    (fun dir name => dir +:+ "/" +:+ name).

Definition stored_constraint : sqlite :=
  mkSqlite "customers.db" sqliteConnections 7%nat
    (Some (SqliteError (sqlite3.mkError 19 1555 "constraint failed"))).

End TestScenario.

(** * Specification vocabulary *)

(** The rows of the ledger behind a handle. *)
Definition rows (db : sql_DB) (w : World) : list string :=
  ledger_rows (database_at w (db_dsn db)).


(** The message shape. *)
Definition duplicate_message (v : error_value) : Prop :=
  strings.occurs_in "UNIQUE constraint failed" (Error v).

(** [w'] is [w] with [evs] appended to its trace and nothing else
    changed. *)
Definition only_traced (w w' : World) (evs : list Event) : Prop :=
  w' = mkWorld (sqliteVersionLogOnce w) (opened w) (fs w) (gauges w) (trace w ++ evs)%list.

(** Events of the engine that execute a statement. *)
Definition is_exec (ev : Event) : bool :=
  match ev with
  | EvExec _ _ _ => true
  | _ => false
  end.

(** Every step of [steps] is recorded in the ledger of [d]. *)
Definition migrated (steps : list Migration) (d : Database) : Prop :=
  is_Some (ledger d) /\ forall m, m ∈ steps -> Name m ∈ ledger_rows d.

(** One successful ledger lookup per step, in registration order. *)
Definition lookups (db : sql_DB) (steps : list Migration) : list Event :=
  map (fun m => EvLedgerLookup db (Name m) true) steps.

(** What the guarded action leaves in the trace, from the state of the
    gate before the call. *)
Inductive GuardTrace (s : sqlite) : bool -> list Event -> Prop :=
| GT_fired : GuardTrace s true []
| GT_no_version : GuardTrace s false [EvVersion ""]
| GT_logged (v : string) :
    v <> "" ->
    GuardTrace s false [EvVersion v; EvLog (logger s) ["main"; "sqlite version " +:+ v]].

(** Events of the migration engine between its ledger check and its
    return. *)
Definition engine_event (ev : Event) : bool :=
  match ev with
  | EvLedgerLookup _ _ _ | EvExec _ _ _ | EvLedgerRecord _ _ => true
  | _ => false
  end.

(** The result of a [Connect] and the events it added, from the state of
    the gate before the call. *)
Inductive ConnectTrace (s : sqlite) (fired : bool) : option sql_DB * goerror -> list Event -> Prop :=
| CT_stored (e : error_value) :
    err s = Some e ->
    ConnectTrace s fired (None, Some (fmt_Errorf_v "sqlite had error " e)) []
| CT_open (gev : list Event) (e : error_value) :
    err s = None -> GuardTrace s fired gev ->
    ConnectTrace s fired (None, Some e) (gev ++ [EvOpen (path s) (inl e)])
| CT_ping (gev : list Event) (db : sql_DB) (e : error_value) :
    err s = None -> GuardTrace s fired gev ->
    ConnectTrace s fired (Some db, Some e)
      (gev ++ [EvOpen (path s) (inr db); EvPing db (Some e)])
| CT_migrate (gev mev : list Event) (db : sql_DB) (e : error_value) :
    err s = None -> GuardTrace s fired gev ->
    Forall (fun ev => engine_event ev = true) mev ->
    ConnectTrace s fired (Some db, Some e)
      (gev ++ [EvOpen (path s) (inr db); EvPing db None; EvLedgerEnsure db]
           ++ mev ++ [EvMigrate db (Some e)])
| CT_ok (gev mev : list Event) (db : sql_DB) :
    err s = None -> GuardTrace s fired gev ->
    Forall (fun ev => engine_event ev = true) mev ->
    ConnectTrace s fired (Some db, None)
      (gev ++ [EvOpen (path s) (inr db); EvPing db None; EvLedgerEnsure db]
           ++ mev ++ [EvMigrate db None; EvGo (metricsReporter s db)]).

(** [w'] is [w] with [evs] appended to its trace and possibly other
    files; the gate, the handle count and the gauges are those of [w]. *)
Definition engine_run (w w' : World) (evs : list Event) : Prop :=
  sqliteVersionLogOnce w' = sqliteVersionLogOnce w /\
  opened w' = opened w /\
  gauges w' = gauges w /\
  trace w' = (trace w ++ evs)%list.

(** Events of the guarded action. *)
Definition guard_event (ev : Event) : bool :=
  match ev with
  | EvVersion _ | EvLog _ _ => true
  | _ => false
  end.

(** Calls of [sqlite3.Version()]. *)
Definition is_version (ev : Event) : bool :=
  match ev with
  | EvVersion _ => true
  | _ => false
  end.

(** How many times the guarded action ran: it starts by reading the
    engine's version. *)
Definition version_calls (tr : list Event) : nat :=
  length (List.filter is_version tr).

(** The gate's invariant: the action ran at most once, and not at all
    while the gate has not fired. *)
Definition gate_inv (w : World) : Prop :=
  (version_calls (trace w) <= if sqliteVersionLogOnce w then 1 else 0)%nat.

(** Events of the Metrics Reporter of provider [s] on handle [db]. *)
Definition reporter_event (s : sqlite) (db : sql_DB) (ev : Event) : Prop :=
  match ev with
  | EvStats db' _ => db' = db
  | EvGaugeSet g _ =>
      g = Gauge_With (connections s) ["state"; "idle"] \/
      g = Gauge_With (connections s) ["state"; "inuse"] \/
      g = Gauge_With (connections s) ["state"; "open"]
  | _ => False
  end.

(** From [w] to [w'] no file was removed, and only the file at [dsn]
    may have been created or changed. *)
Definition fs_touched_only (dsn : string) (w w' : World) : Prop :=
  (forall q, q <> dsn -> fs w' !! q = fs w !! q) /\
  (forall q, is_Some (fs w !! q) -> is_Some (fs w' !! q)).

(** Events that [Connect] never causes itself: closing a handle, removing
    files, reading pool statistics, writing a gauge. *)
Definition cleanup_or_metric_event (ev : Event) : bool :=
  match ev with
  | EvClose _ _ | EvRemoveAll _ _ | EvStats _ _ | EvGaugeSet _ _ => true
  | _ => false
  end.

(** The providers of a list that are not in the failed state. *)
Definition usable (ss : list sqlite) : list sqlite :=
  List.filter (fun s => match err s with None => true | Some _ => false end) ss.

(** [ev] is not a call of a logger other than [l]. *)
Definition logged_to (l : Logger) (ev : Event) : Prop :=
  match ev with
  | EvLog l' _ => l' = l
  | _ => True
  end.

(** The key of the package gauge for a connection state. *)
Definition state_key (state : string) : string * list string :=
  ("sqlite_connections", ["state"; state]).

(** [strings.Split(p, "/")]. *)
Fixpoint segments (p : string) : list string :=
  match p with
  | EmptyString => [""]
  | String c rest =>
      if Ascii.eqb c "/" then "" :: segments rest
      else match segments rest with
           | seg :: segs => String c seg :: segs
           | [] => [String c ""]
           end
  end.

(** A path element that names a file or a directory. *)
Definition ordinary (seg : string) : bool :=
  negb (String.eqb seg "") && negb (String.eqb seg ".") && negb (String.eqb seg "..").

(** [p] is a clean path of a directory below the root, as
    [ioutil.TempDir] returns it: not empty, without a trailing or a
    doubled slash, without "." or ".." elements. For such a path, and only
    for such a path, [within p] is what [os.RemoveAll(p)] removes. *)
Definition clean_dir (p : string) : bool :=
  match segments p with
  | first :: rest =>
      (if String.eqb first "" then negb (bool_decide (rest = [])) else ordinary first)
      && forallb ordinary rest
  | [] => false
  end.

(** * Properties *)

(** ** Substring search *)

Lemma HasPrefix_spec (s prefix : string) :
  strings.HasPrefix s prefix = true <-> exists rest, s = prefix +:+ rest.
Proof.
  revert s. induction prefix as [|c p IH]; intros s; simpl.
  - split; [intros _; exists s; reflexivity | intros _; reflexivity].
  - destruct s as [|d s']; simpl.
    + split; [discriminate | intros [rest H]; discriminate].
    + rewrite andb_true_iff, Ascii.eqb_eq, IH. split.
      * intros [-> [rest ->]]. exists rest. reflexivity.
      * intros [rest H]. injection H as -> ->. split; [reflexivity | eauto].
Qed.

Lemma Contains_spec (s substr : string) :
  strings.Contains s substr = true <-> strings.occurs_in substr s.
Proof.
  unfold strings.occurs_in. induction s as [|c s IH]; simpl.
  - rewrite orb_false_r, HasPrefix_spec. split.
    + intros [rest H]. exists "", rest. exact H.
    + intros [[|b before] [after H]]; [exists after; exact H | discriminate].
  - rewrite orb_true_iff, HasPrefix_spec, IH. split.
    + intros [[rest H] | [before [after H]]].
      * exists "", rest. exact H.
      * exists (String c before), after. simpl. rewrite H. reflexivity.
    + intros [[|b before] [after H]].
      * left. exists after. exact H.
      * right. simpl in H. injection H as _ H. exists before, after. exact H.
Qed.

Lemma Contains_false (s substr : string) :
  strings.Contains s substr = false <-> ~ strings.occurs_in substr s.
Proof.
  rewrite <- Contains_spec. destruct (strings.Contains s substr); split; congruence.
Qed.

(** ** Path resolver *)

(** C4. [getSqlitePath] is a total function of the configured value
    [raw]: when [raw] is empty or contains the parent-directory marker ".."
    the result is the default filename "customers.db", which is not [raw];
    for every other [raw] the result is [raw] itself. *)
Theorem getSqlitePath_resolves (environ : gmap string string) :
  let raw := os_Getenv environ "SQLITE_DB_PATH" in
  (raw = "" \/ strings.occurs_in ".." raw ->
     getSqlitePath environ = "customers.db" /\ getSqlitePath environ <> raw) /\
  (~ (raw = "" \/ strings.occurs_in ".." raw) ->
     getSqlitePath environ = raw).
Proof.
  intros raw. unfold getSqlitePath. fold raw.
  destruct (String.eqb_spec raw "") as [Hempty | Hne].
  - simpl. split; [| tauto]. intros _. split; [reflexivity |].
    rewrite Hempty. discriminate.
  - simpl. destruct (strings.Contains raw "..") eqn:Hc.
    + split.
      * intros _. split; [reflexivity |]. intros Heq.
        rewrite <- Heq in Hc. vm_compute in Hc. discriminate.
      * apply Contains_spec in Hc. tauto.
    + apply Contains_false in Hc. split; [tauto | reflexivity].
Qed.

Lemma getSqlitePath_resolves_witness :
  getSqlitePath {[ "SQLITE_DB_PATH" := "../../etc/customers.db" ]} = "customers.db" /\
  getSqlitePath ∅ = "customers.db" /\
  getSqlitePath {[ "SQLITE_DB_PATH" := "data/customers.db" ]} = "data/customers.db".
Proof.
  split; [| split].
  - apply (getSqlitePath_resolves {[ "SQLITE_DB_PATH" := "../../etc/customers.db" ]}).
    right. apply Contains_spec. vm_compute. reflexivity.
  - apply (getSqlitePath_resolves ∅). left. vm_compute. reflexivity.
  - refine (proj2 (getSqlitePath_resolves {[ "SQLITE_DB_PATH" := "data/customers.db" ]}) _).
    intros [H | H]; [vm_compute in H; discriminate |].
    apply Contains_spec in H. vm_compute in H. discriminate.
Defined.

Example getSqlitePath_unset : getSqlitePath ∅ = "customers.db".
Proof. reflexivity. Qed.

Example getSqlitePath_escaping :
  getSqlitePath {[ "SQLITE_DB_PATH" := "/var/lib/../../etc/shadow" ]} = "customers.db".
Proof. vm_compute. reflexivity. Qed.

Example getSqlitePath_absolute :
  getSqlitePath {[ "SQLITE_DB_PATH" := "/data/customers.db" ]} = "/data/customers.db".
Proof. vm_compute. reflexivity. Qed.

(** ** Error classifier *)




Example classify_duplicate_acceptance :
  SqliteUniqueViolation (Some Scenario.duplicate_acceptance) = Some true.
Proof. reflexivity. Qed.

Example classify_code_only :
  SqliteUniqueViolation (Some (SqliteError (sqlite3.mkError 19 1555 "constraint failed")))
    = Some true.
Proof. reflexivity. Qed.

Example classify_message_only :
  SqliteUniqueViolation (Some (OtherError "insert: UNIQUE constraint failed: customer_ssn.customer_id"))
    = Some true.
Proof. reflexivity. Qed.

Example classify_syntax_error :
  SqliteUniqueViolation (Some (SqliteError (sqlite3.mkError 1 1 "near FROM: syntax error")))
    = Some false.
Proof. reflexivity. Qed.

Lemma Interface_agrees (err : goerror) :
  Interface.SqliteUniqueViolation (Interface.of_goerror err) = SqliteUniqueViolation err.
Proof. destruct err as [v|]; reflexivity. Qed.

(** The claim C6 as it is written fails on two kinds of error values:
    on the nil error, and on a non-nil error whose [Error()] panics (a
    nil [*sqlite3.Error] in the interface); the call panics on both. *)
Lemma SqliteUniqueViolation_panics_with_Error :
  Interface.SqliteUniqueViolation Interface.nil = None /\
  Interface.SqliteUniqueViolation Interface.panicking = None /\
  ~ (forall err : Interface.t, exists b, Interface.SqliteUniqueViolation err = Some b).
Proof.
  split; [reflexivity | split; [reflexivity |]].
  intros H. destruct (H Interface.panicking) as [b Hb]. discriminate.
Qed.

(** C6, amended. [SqliteUniqueViolation] panics exactly when
    [err.Error()] does, that is on the nil error and on an error whose
    [Error()] panics: nothing after that call panics. On every error whose
    [Error()] returns a text it returns a boolean, and that boolean is
    false when the text does not contain the phrase and the error is not a
    [sqlite3.Error] with the constraint code. *)
Theorem SqliteUniqueViolation_panics_only_in_Error (err : Interface.t) :
  (Interface.SqliteUniqueViolation err = None <-> Interface.Error err = None) /\
  (forall text,
     Interface.Error err = Some text ->
     ~ strings.occurs_in "UNIQUE constraint failed" text ->
     ~ (exists e, Interface.as_sqlite3_Error err = Some e /\
                  sqlite3.Code e = sqlite3.ErrConstraint) ->
     Interface.SqliteUniqueViolation err = Some false).
Proof.
  unfold Interface.SqliteUniqueViolation. split.
  - destruct (Interface.Error err) as [text|]; [| tauto].
    destruct (Interface.as_sqlite3_Error err); split; discriminate.
  - intros text -> Hm Hc. apply Contains_false in Hm. rewrite Hm.
    destruct (Interface.as_sqlite3_Error err) as [e|]; [| reflexivity].
    simpl. f_equal. apply Z.eqb_neq. intros Hcode. apply Hc. eauto.
Qed.

(** ** Worlds and traces *)

Lemma bind_run {A B : Type} (m : M A) (k : A -> M B) (w : World) :
  bind m k w = k (m w).1 (m w).2.
Proof. unfold bind. destruct (m w). reflexivity. Qed.

Lemma database_at_record (e : Event) (w : World) (dsn : string) :
  database_at (record e w) dsn = database_at w dsn.
Proof. reflexivity. Qed.

Lemma database_at_stored (dsn : string) (d : Database) (f : gmap string File) (w : World) :
  database_at (set_fs (<[dsn := DatabaseFile d]> f) w) dsn = d.
Proof.
  unfold database_at. simpl. rewrite lookup_insert_eq. reflexivity.
Qed.

Lemma only_traced_record (e : Event) (w : World) : only_traced w (record e w) [e].
Proof. reflexivity. Qed.

Lemma only_traced_trans (w1 w2 w3 : World) (evs1 evs2 : list Event) :
  only_traced w1 w2 evs1 -> only_traced w2 w3 evs2 ->
  only_traced w1 w3 (evs1 ++ evs2)%list.
Proof.
  unfold only_traced. intros -> ->. simpl. rewrite app_assoc. reflexivity.
Qed.

(** ** Migration Engine *)

Section MigrationEngine.

Variable P : Platform.
Variable db : sql_DB.

Lemma apply_step_ok (m : Migration) (w w' : World) :
  apply_step P db m w = (None, w') ->
  rows db w' = (rows db w ++ [Name m])%list /\ is_Some (ledger (database_at w' (db_dsn db))).
Proof.
  unfold apply_step, rows.
  destruct (Exec_result P (statement m) (database_at w (db_dsn db))) as [e|];
    unfold bind, ret, emit; simpl; intros H.
  - discriminate.
  - injection H as <-. rewrite database_at_stored. simpl.
    split; [reflexivity | eauto].
Qed.

(** A run of the steps that succeeds leaves every step recorded, and
    keeps what was recorded before. *)
Lemma migrate_steps_ok (steps : list Migration) :
  forall w w',
    migrate_steps P db steps w = (None, w') ->
    (is_Some (ledger (database_at w (db_dsn db))) ->
     is_Some (ledger (database_at w' (db_dsn db)))) /\
    (forall n, n ∈ rows db w -> n ∈ rows db w') /\
    (forall m, m ∈ steps -> Name m ∈ rows db w').
Proof.
  induction steps as [|m rest IH]; intros w w' H.
  - injection H as <-. split; [auto | split; [auto |]].
    intros m Hm. inversion Hm.
  - simpl in H. unfold bind at 1 in H. unfold ledger_lookup in H.
    unfold bind, ret, emit in H. simpl in H.
    case_bool_decide as Hfound.
    + apply IH in H as (Hs & Hkeep & Hall).
      split; [exact Hs | split; [exact Hkeep |]].
      intros m' Hm'. apply elem_of_cons in Hm' as [-> | Hm']; [| auto].
      apply Hkeep. exact Hfound.
    + cbv beta in H.
      destruct (apply_step P db m (record (EvLedgerLookup db (Name m) false) w))
        as [[e|] w1] eqn:Hstep; [discriminate |].
      apply apply_step_ok in Hstep as [Hrows Hsome].
      apply IH in H as (Hs & Hkeep & Hall).
      split; [auto | split].
      * intros n Hn. apply Hkeep. rewrite Hrows. apply elem_of_app. left. exact Hn.
      * intros m' Hm'. apply elem_of_cons in Hm' as [-> | Hm']; [| auto].
        apply Hkeep. rewrite Hrows. apply elem_of_app. right. apply list_elem_of_singleton.
        reflexivity.
Qed.

(** On a database where every step is recorded, the steps are only
    looked up. *)
Lemma migrate_steps_recorded (steps : list Migration) :
  forall w,
    (forall m, m ∈ steps -> Name m ∈ rows db w) ->
    exists w', migrate_steps P db steps w = (None, w') /\
               only_traced w w' (lookups db steps).
Proof.
  induction steps as [|m rest IH]; intros w Hall.
  - exists w. split; [reflexivity |]. unfold only_traced. simpl.
    rewrite app_nil_r. destruct w; reflexivity.
  - simpl. unfold bind at 1. unfold ledger_lookup.
    unfold bind, ret, emit. simpl.
    rewrite bool_decide_true by (apply Hall; apply elem_of_cons; auto).
    destruct (IH (record (EvLedgerLookup db (Name m) true) w)) as (w' & Hrun & Htr).
    + intros m' Hm'. apply Hall. apply elem_of_cons. auto.
    + exists w'. split; [exact Hrun |].
      apply (only_traced_trans _ _ _ [EvLedgerLookup db (Name m) true] _
               (only_traced_record _ w) Htr).
Qed.

Lemma ensure_ledger_ok (w : World) :
  is_Some (ledger (database_at (ensure_ledger db w).2 (db_dsn db))) /\
  rows db (ensure_ledger db w).2 = rows db w /\
  (is_Some (ledger (database_at w (db_dsn db))) ->
   only_traced w (ensure_ledger db w).2 [EvLedgerEnsure db]).
Proof.
  unfold ensure_ledger, rows. rewrite bind_run. unfold emit, ret. simpl.
  destruct (ledger (database_at w (db_dsn db))) as [l|] eqn:Hl; simpl.
  - rewrite database_at_record, Hl. split; [eauto | split; [reflexivity |]].
    intros _. apply only_traced_record.
  - unfold store_database. simpl. rewrite database_at_stored. simpl.
    split; [eauto | split].
    + unfold ledger_rows. rewrite Hl. reflexivity.
    + intros [l Hsome]. discriminate.
Qed.

Lemma Migrate_run (steps : list Migration) (w : World) :
  Migrate P steps db w =
    let r := migrate_steps P db steps (ensure_ledger db w).2 in
    (r.1, record (EvMigrate db r.1) r.2).
Proof.
  unfold Migrate. rewrite !bind_run. reflexivity.
Qed.

Lemma Migrate_ok (steps : list Migration) (w w' : World) :
  Migrate P steps db w = (None, w') ->
  migrated steps (database_at w' (db_dsn db)).
Proof.
  rewrite Migrate_run.
  destruct (ensure_ledger_ok w) as (Hsome & _ & _).
  destruct (migrate_steps P db steps (ensure_ledger db w).2) as [e w2] eqn:Hrun.
  simpl. intros H. injection H as -> <-.
  apply migrate_steps_ok in Hrun as (Hs & _ & Hall).
  split; [apply Hs, Hsome | exact Hall].
Qed.

Lemma Migrate_migrated (steps : list Migration) (w : World) :
  migrated steps (database_at w (db_dsn db)) ->
  exists w', Migrate P steps db w = (None, w') /\
    only_traced w w'
      ([EvLedgerEnsure db] ++ lookups db steps ++ [EvMigrate db None])%list.
Proof.
  intros [Hsome Hall]. rewrite Migrate_run.
  destruct (ensure_ledger_ok w) as (_ & Hrows & Htr1). specialize (Htr1 Hsome).
  destruct (migrate_steps_recorded steps (ensure_ledger db w).2) as (w1 & Hrun & Htr2).
  { rewrite Hrows. exact Hall. }
  rewrite Hrun. simpl. eexists. split; [reflexivity |].
  apply (only_traced_trans _ _ _ _ _ Htr1).
  apply (only_traced_trans _ _ _ _ [EvMigrate db None] Htr2 (only_traced_record _ w1)).
Qed.

End MigrationEngine.

Lemma lookups_not_exec (db : sql_DB) (steps : list Migration) :
  Forall (fun ev => is_exec ev = false)
    ([EvLedgerEnsure db] ++ lookups db steps ++ [EvMigrate db None])%list.
Proof.
  apply Forall_app. split; [repeat constructor |].
  apply Forall_app. split; [| repeat constructor].
  unfold lookups. apply Forall_map. apply Forall_forall. intros; reflexivity.
Qed.

(** C1. After a [Migrate] that returned no error, a second [Migrate]
    through any connection to the same database returns no error, leaves
    every file (hence the ledger and its row count) as it was, and its
    only events are the ledger check and one lookup per step: no statement
    is executed. *)
Theorem Migrate_twice_is_noop (P : Platform) (steps : list Migration)
        (db db' : sql_DB) (w : World) :
  db_dsn db' = db_dsn db ->
  fst (Migrate P steps db w) = None ->
  let w1 := snd (Migrate P steps db w) in
  let w2 := snd (Migrate P steps db' w1) in
  fst (Migrate P steps db' w1) = None /\
  fs w2 = fs w1 /\
  length (rows db' w2) = length (rows db w1) /\
  exists evs,
    trace w2 = (trace w1 ++ evs)%list /\
    evs = ([EvLedgerEnsure db'] ++ lookups db' steps ++ [EvMigrate db' None])%list /\
    Forall (fun ev => is_exec ev = false) evs.
Proof.
  intros Hdsn Hfirst w1 w2.
  destruct (Migrate P steps db w) as [e w1'] eqn:Hrun1. simpl in Hfirst, w1. subst e w1.
  apply Migrate_ok in Hrun1. rewrite <- Hdsn in Hrun1.
  destruct (Migrate_migrated P db' steps w1' Hrun1) as (w2' & Hrun2 & Htr).
  subst w2. rewrite Hrun2. simpl.
  unfold only_traced in Htr. subst w2'. unfold rows. rewrite Hdsn. simpl.
  split; [reflexivity | split; [reflexivity | split; [reflexivity |]]].
  eexists. split; [reflexivity | split; [reflexivity |]].
  apply lookups_not_exec.
Qed.

Lemma Migrate_twice_is_noop_witness :
  let w := process_start ∅ in
  let w1 := snd (Migrate Scenario.healthy sqliteMigrator Scenario.handle w) in
  fst (Migrate Scenario.healthy sqliteMigrator Scenario.handle w) = None /\
  fst (Migrate Scenario.healthy sqliteMigrator (mkDB 1 "customers.db") w1) = None /\
  length (rows Scenario.handle w1) = 12%nat.
Proof.
  intros w w1. split; [vm_compute; reflexivity |]. split.
  - apply (Migrate_twice_is_noop Scenario.healthy sqliteMigrator Scenario.handle
             (mkDB 1 "customers.db") w).
    + reflexivity.
    + vm_compute. reflexivity.
  - vm_compute. reflexivity.
Defined.

(** ** Connect, as a relation between its result and what it did *)

Lemma engine_run_refl (w : World) : engine_run w w [].
Proof. unfold engine_run. rewrite app_nil_r. auto. Qed.

Lemma engine_run_trans (w1 w2 w3 : World) (evs1 evs2 : list Event) :
  engine_run w1 w2 evs1 -> engine_run w2 w3 evs2 -> engine_run w1 w3 (evs1 ++ evs2)%list.
Proof.
  unfold engine_run. intros (H1 & H2 & H3 & H4) (H5 & H6 & H7 & H8).
  rewrite H5, H6, H7, H8, H4, app_assoc. auto.
Qed.

Lemma engine_run_record (e : Event) (w : World) : engine_run w (record e w) [e].
Proof. unfold engine_run. auto. Qed.

Section Frames.

Variable P : Platform.

Lemma apply_step_frame (db : sql_DB) (m : Migration) (w : World) :
  exists evs, engine_run w (apply_step P db m w).2 evs /\
              Forall (fun ev => engine_event ev = true) evs.
Proof.
  unfold apply_step.
  destruct (Exec_result P (statement m) (database_at w (db_dsn db))) as [e|].
  - exists [EvExec db (statement m) (Some e)]. split; [| repeat constructor].
    unfold engine_run, bind, ret, emit. simpl. auto.
  - exists [EvExec db (statement m) None; EvLedgerRecord db (Name m)].
    split; [| repeat constructor].
    unfold engine_run, bind, ret, emit, store_database. simpl.
    rewrite <- app_assoc. auto.
Qed.

Lemma migrate_steps_frame (db : sql_DB) (steps : list Migration) :
  forall w, exists evs, engine_run w (migrate_steps P db steps w).2 evs /\
                        Forall (fun ev => engine_event ev = true) evs.
Proof.
  induction steps as [|m rest IH]; intros w.
  - exists []. split; [apply engine_run_refl | constructor].
  - simpl. rewrite bind_run. unfold ledger_lookup at 1 2. rewrite !bind_run.
    unfold emit, ret. simpl.
    set (found := bool_decide (Name m ∈ ledger_rows (database_at w (db_dsn db)))).
    set (w1 := record (EvLedgerLookup db (Name m) found) w).
    assert (H1 : engine_run w w1 [EvLedgerLookup db (Name m) found])
      by apply engine_run_record.
    destruct found.
    + destruct (IH w1) as (evs & Hrun & Hev).
      exists ([EvLedgerLookup db (Name m) true] ++ evs)%list. split.
      * exact (engine_run_trans _ _ _ _ _ H1 Hrun).
      * constructor; [reflexivity | exact Hev].
    + rewrite bind_run.
      destruct (apply_step_frame db m w1) as (evs1 & Hrun1 & Hev1).
      destruct (apply_step P db m w1) as [[e|] w2]; simpl in *.
      * exists ([EvLedgerLookup db (Name m) false] ++ evs1)%list. split.
        -- exact (engine_run_trans _ _ _ _ _ H1 Hrun1).
        -- constructor; [reflexivity | exact Hev1].
      * destruct (IH w2) as (evs2 & Hrun2 & Hev2).
        exists ([EvLedgerLookup db (Name m) false] ++ evs1 ++ evs2)%list. split.
        -- apply (engine_run_trans _ _ _ _ _ H1).
           exact (engine_run_trans _ _ _ _ _ Hrun1 Hrun2).
        -- constructor; [reflexivity |]. apply Forall_app. auto.
Qed.

Lemma ensure_ledger_frame (db : sql_DB) (w : World) :
  engine_run w (ensure_ledger db w).2 [EvLedgerEnsure db].
Proof.
  unfold ensure_ledger. rewrite bind_run. unfold emit, ret. simpl.
  destruct (ledger (database_at w (db_dsn db))); unfold engine_run; simpl; auto.
Qed.

Lemma Migrate_frame (steps : list Migration) (db : sql_DB) (w : World) :
  exists mev,
    engine_run w (Migrate P steps db w).2
      ([EvLedgerEnsure db] ++ mev ++ [EvMigrate db (Migrate P steps db w).1])%list /\
    Forall (fun ev => engine_event ev = true) mev.
Proof.
  rewrite Migrate_run.
  destruct (migrate_steps_frame db steps (ensure_ledger db w).2) as (mev & Hrun & Hev).
  exists mev. split; [| exact Hev]. simpl.
  apply (engine_run_trans _ _ _ _ _ (ensure_ledger_frame db w)).
  apply (engine_run_trans _ _ _ _ _ Hrun). apply engine_run_record.
Qed.

End Frames.

Section ConnectRuns.

Variable P : Platform.

Lemma guard_run (s : sqlite) (w : World) :
  exists gev,
    GuardTrace s (sqliteVersionLogOnce w) gev /\
    sqliteVersionLogOnce (sqliteVersionLogOnce_Do (logVersion P s) w).2 = true /\
    opened (sqliteVersionLogOnce_Do (logVersion P s) w).2 = opened w /\
    trace (sqliteVersionLogOnce_Do (logVersion P s) w).2 = (trace w ++ gev)%list.
Proof.
  unfold sqliteVersionLogOnce_Do.
  destruct (sqliteVersionLogOnce w) eqn:Hfired.
  - exists []. simpl. rewrite app_nil_r. split; [constructor | auto].
  - unfold logVersion. rewrite bind_run. unfold sqlite3_Version. simpl.
    destruct (String.eqb_spec (Version_result P w).1.1 "") as [Hv | Hv]; simpl.
    + exists [EvVersion ""]. rewrite Hv. split; [constructor | auto].
    + eexists. split; [apply (GT_logged s _ Hv) |].
      unfold Log, emit. simpl. rewrite <- app_assoc. auto.
Qed.

Lemma Connect_stored (s : sqlite) (e : error_value) (w : World) :
  err s = Some e ->
  Connect P s w = ((None, Some (fmt_Errorf_v "sqlite had error " e)), w).
Proof. unfold Connect. intros ->. reflexivity. Qed.

(** Every call of [Connect] is one of the five runs of [ConnectTrace]. *)
Lemma Connect_trace (s : sqlite) (w : World) :
  exists evs,
    trace (Connect P s w).2 = (trace w ++ evs)%list /\
    ConnectTrace s (sqliteVersionLogOnce w) (Connect P s w).1 evs /\
    (err s = None -> sqliteVersionLogOnce (Connect P s w).2 = true).
Proof.
  destruct (err s) as [e|] eqn:Herr.
  - rewrite (Connect_stored s e w Herr). exists []. simpl. rewrite app_nil_r.
    split; [reflexivity | split; [apply CT_stored; exact Herr | discriminate]].
  - unfold Connect. rewrite Herr. rewrite bind_run.
    destruct (guard_run s w) as (gev & Hg & Hfired & Hopened & Htrace).
    set (w1 := (sqliteVersionLogOnce_Do (logVersion P s) w).2) in *.
    rewrite bind_run. unfold sql_Open.
    destruct (Open_result P "sqlite3" (path s) w1) as [e|]; simpl.
    + exists (gev ++ [EvOpen (path s) (inl e)])%list.
      rewrite Htrace, <- app_assoc.
      split; [reflexivity | split; [apply CT_open; assumption | auto]].
    + set (db := mkDB (opened w1) (path s)).
      set (w2 := record (EvOpen (path s) (inr db)) (set_opened (S (opened w1)) w1)).
      rewrite bind_run. unfold Ping.
      destruct (Ping_result P db w2) as [e|]; simpl.
      * exists (gev ++ [EvOpen (path s) (inr db); EvPing db (Some e)])%list.
        rewrite Htrace, <- !app_assoc.
        split; [reflexivity | split; [apply CT_ping; assumption | auto]].
      * set (w3 := record (EvPing db None) w2).
        rewrite bind_run.
        destruct (Migrate_frame P sqliteMigrator db w3) as (mev & Hrun & Hmev).
        destruct Hrun as (Hf4 & _ & _ & Htr4).
        destruct (Migrate P sqliteMigrator db w3) as [[e|] w4]; simpl in *.
        -- exists (gev ++ [EvOpen (path s) (inr db); EvPing db None; EvLedgerEnsure db]
                     ++ mev ++ [EvMigrate db (Some e)])%list.
           rewrite Htr4, Htrace, <- !app_assoc. simpl.
           split; [reflexivity | split; [apply CT_migrate; assumption | intros _; congruence]].
        -- exists (gev ++ [EvOpen (path s) (inr db); EvPing db None; EvLedgerEnsure db]
                     ++ mev ++ [EvMigrate db None; EvGo (metricsReporter s db)])%list.
           unfold go, emit, bind, ret. simpl.
           rewrite Htr4, Htrace, <- !app_assoc. simpl. rewrite <- !app_assoc. simpl.
           split; [reflexivity | split; [apply CT_ok; assumption | intros _; congruence]].
Qed.

End ConnectRuns.

Lemma GuardTrace_events (s : sqlite) (fired : bool) (gev : list Event) :
  GuardTrace s fired gev -> Forall (fun ev => guard_event ev = true) gev.
Proof. intros H. inversion H; repeat constructor. Qed.

(** Case analysis of the membership of an event in a trace made of
    guard events, engine events and the events of [Connect] itself. *)
Ltac trace_cases :=
  repeat match goal with
  | H : GuardTrace _ _ _ |- _ => apply GuardTrace_events in H
  | H : _ ∈ (_ ++ _)%list |- _ => apply elem_of_app in H as [H | H]
  | H : _ ∈ (_ :: _) |- _ => apply elem_of_cons in H as [H | H]
  | H : _ ∈ [] |- _ => apply elem_of_nil in H; contradiction
  | H : Forall _ ?l, H' : _ ∈ ?l |- _ =>
      apply (proj1 (Forall_forall _ _) H) in H'; simpl in H'; discriminate
  | H : @eq Event _ _ |- _ => simplify_eq
  end.

Ltac in_trace :=
  rewrite ?elem_of_app, ?elem_of_cons; eauto 20.

(** C2. Whatever the platform does: a [Connect] of a provider without a
    stored error opens its path; if the open fails, [Connect] returns no
    handle and the open error; if the open gives a handle, the handle is
    pinged, and if the ping fails [Connect] returns that handle and the
    ping error; if the ping succeeds, the handle is migrated, and if the
    migration fails [Connect] returns that handle and the migration
    error. *)
Theorem Connect_failure_returns (P : Platform) (s : sqlite) (w : World) :
  exists evs,
    trace (Connect P s w).2 = (trace w ++ evs)%list /\
    (err s = None -> exists r, EvOpen (path s) r ∈ evs) /\
    (forall dsn e, EvOpen dsn (inl e) ∈ evs -> (Connect P s w).1 = (None, Some e)) /\
    (forall dsn db, EvOpen dsn (inr db) ∈ evs -> exists r, EvPing db r ∈ evs) /\
    (forall dsn db e,
       EvOpen dsn (inr db) ∈ evs -> EvPing db (Some e) ∈ evs ->
       (Connect P s w).1 = (Some db, Some e)) /\
    (forall dsn db,
       EvOpen dsn (inr db) ∈ evs -> EvPing db None ∈ evs ->
       exists r, EvMigrate db r ∈ evs) /\
    (forall dsn db e,
       EvOpen dsn (inr db) ∈ evs -> EvPing db None ∈ evs -> EvMigrate db (Some e) ∈ evs ->
       (Connect P s w).1 = (Some db, Some e)).
Proof.
  destruct (Connect_trace P s w) as (evs & Htr & Hct & _).
  exists evs. split; [exact Htr |].
  destruct (Connect P s w) as [r w']. simpl in *.
  inversion Hct; subst; clear Hct;
    (split; [intros Herr; try congruence; eexists; in_trace |]);
    repeat split; intros; trace_cases; try reflexivity; try (eexists; in_trace).
Qed.

Lemma Connect_failure_returns_witness :
  (Connect Scenario.unreachable Scenario.provider (process_start ∅)).1 =
    (Some Scenario.handle, Some Scenario.disk_full).
Proof.
  destruct (Connect_failure_returns Scenario.unreachable Scenario.provider (process_start ∅))
    as (evs & Htr & _ & _ & _ & Hping & _).
  vm_compute in Htr. subst evs.
  apply (Hping "customers.db"); repeat constructor.
Defined.

(** ** Providers in the failed state *)

Lemma connect_all_stored (P : Platform) (s : sqlite) (e : error_value) (w : World) (n : nat) :
  err s = Some e ->
  connect_all P (replicate n s) w =
    (replicate n (None, Some (fmt_Errorf_v "sqlite had error " e)), w).
Proof.
  intros Herr. induction n as [|n IH]; [reflexivity |].
  simpl. rewrite bind_run, (Connect_stored P s e w Herr). simpl.
  rewrite bind_run, IH. reflexivity.
Qed.

(** C3. A provider whose stored error [e] is not nil: every [Connect]
    returns no handle and an error whose text is "sqlite had error "
    followed by the text of [e], and leaves the world as it was (no
    event, hence no open, ping, migration or goroutine; the gate is not
    fired; no file changes). The same holds for any number of calls in
    a row. *)
Theorem Connect_stored_error (P : Platform) (s : sqlite) (e : error_value) (w : World) :
  err s = Some e ->
  Connect P s w = ((None, Some (fmt_Errorf_v "sqlite had error " e)), w) /\
  Error (fmt_Errorf_v "sqlite had error " e) = "sqlite had error " +:+ Error e /\
  forall n : nat,
    connect_all P (replicate n s) w =
      (replicate n (None, Some (fmt_Errorf_v "sqlite had error " e)), w).
Proof.
  intros Herr. split; [apply Connect_stored; exact Herr |].
  split; [reflexivity |].
  intros n. apply connect_all_stored. exact Herr.
Qed.

Lemma Connect_stored_error_witness :
  Connect Scenario.healthy Scenario.failed_provider (process_start ∅) =
    ((None, Some (OtherError "sqlite had error bad config")), process_start ∅).
Proof.
  apply (Connect_stored_error Scenario.healthy Scenario.failed_provider
           (OtherError "bad config") (process_start ∅)).
  reflexivity.
Defined.

(** C10. A provider built by [sqliteConnection] has a nil stored error,
    whatever the logger and the path; so its [Connect] never takes the
    stored-error return, which leaves the world untouched: it always goes
    on to open its path. *)
Theorem sqliteConnection_no_stored_error (l : Logger) (p : string) :
  err (sqliteConnection l p) = None /\
  forall (P : Platform) (w : World),
    (Connect P (sqliteConnection l p) w).2 <> w /\
    exists evs r,
      trace (Connect P (sqliteConnection l p) w).2 = (trace w ++ evs)%list /\
      EvOpen p r ∈ evs.
Proof.
  split; [reflexivity |]. intros P w.
  destruct (Connect_trace P (sqliteConnection l p) w) as (evs & Htr & Hct & _).
  destruct (Connect P (sqliteConnection l p) w) as [res w']. simpl in *.
  assert (Hopen : exists r, EvOpen p r ∈ evs).
  { inversion Hct; subst; clear Hct; try discriminate; eexists; in_trace. }
  destruct Hopen as [r Hr]. split.
  - intros ->. rewrite <- (app_nil_r (trace w)) in Htr at 1.
    apply app_inv_head in Htr. subst evs. inversion Hr.
  - exists evs, r. split; [exact Htr | exact Hr].
Qed.

(** ** Metrics Reporter *)

Lemma tick_run (P : Platform) (s : sqlite) (db : sql_DB) (w : World) :
  let st := Stats_result P db w in
  let g := connections s in
  (metricsReporter_tick P s db w).2 =
    mkWorld (sqliteVersionLogOnce w) (opened w) (fs w)
      (<[(gauge_name g, (lvs g ++ ["state"; "open"])%list) := float64_of_int (OpenConnections st)]>
         (<[(gauge_name g, (lvs g ++ ["state"; "inuse"])%list) := float64_of_int (InUse st)]>
            (<[(gauge_name g, (lvs g ++ ["state"; "idle"])%list) := float64_of_int (Idle st)]>
               (gauges w))))
      (trace w ++
         [EvStats db st;
          EvGaugeSet (Gauge_With g ["state"; "idle"]) (float64_of_int (Idle st));
          EvGaugeSet (Gauge_With g ["state"; "inuse"]) (float64_of_int (InUse st));
          EvGaugeSet (Gauge_With g ["state"; "open"]) (float64_of_int (OpenConnections st))])%list.
Proof.
  unfold metricsReporter_tick. rewrite !bind_run.
  unfold Stats, Gauge_Set, record. simpl. rewrite <- !app_assoc. reflexivity.
Qed.

Lemma run_goroutine_trace (P : Platform) (s : sqlite) (db : sql_DB) (n : nat) :
  forall w, exists evs,
    trace (run_goroutine P (metricsReporter s db) n w).2 = (trace w ++ evs)%list /\
    length evs = (4 * n)%nat /\
    Forall (reporter_event s db) evs /\
    fs (run_goroutine P (metricsReporter s db) n w).2 = fs w.
Proof.
  induction n as [|n IH]; intros w.
  - exists []. simpl. rewrite app_nil_r. auto.
  - simpl. rewrite bind_run.
    destruct (IH (metricsReporter_tick P s db w).2) as (evs & Htr & Hlen & Hev & Hfs).
    rewrite Htr, Hfs, tick_run. simpl.
    eexists. rewrite <- app_assoc. split; [reflexivity |].
    split; [simpl; rewrite Hlen; lia |].
    split; [| reflexivity].
    repeat (constructor; [simpl; auto |]). exact Hev.
Qed.

(** C7. The only goroutine a [Connect] starts is the Metrics Reporter of
    the handle it returns, as its last event, after the open, the ping and
    the migration of that handle have succeeded in this call. The
    reporter's ticker has a period of one minute, and each tick reads the
    pool statistics once and sets exactly the three gauges labelled
    state=idle, state=inuse and state=open to the counts it read; no
    other gauge changes. Over any number of ticks the reporter does
    nothing else. *)
Theorem metrics_after_migration (P : Platform) (s : sqlite) (w : World) :
  (exists evs,
     trace (Connect P s w).2 = (trace w ++ evs)%list /\
     forall g, EvGo g ∈ evs ->
       exists db before,
         g = metricsReporter s db /\
         (Connect P s w).1 = (Some db, None) /\
         evs = (before ++ [EvGo g])%list /\
         EvOpen (path s) (inr db) ∈ before /\
         EvPing db None ∈ before /\
         EvMigrate db None ∈ before /\
         (forall g', EvGo g' ∉ before)) /\
  (forall db, task_period (metricsReporter s db) = 60 * 1000000000) /\
  (forall db w0,
     let st := Stats_result P db w0 in
     let w1 := (metricsReporter_tick P s db w0).2 in
     let key state := (gauge_name (connections s), (lvs (connections s) ++ ["state"; state])%list) in
     trace w1 =
       (trace w0 ++
          [EvStats db st;
           EvGaugeSet (Gauge_With (connections s) ["state"; "idle"]) (float64_of_int (Idle st));
           EvGaugeSet (Gauge_With (connections s) ["state"; "inuse"]) (float64_of_int (InUse st));
           EvGaugeSet (Gauge_With (connections s) ["state"; "open"])
             (float64_of_int (OpenConnections st))])%list /\
     gauges w1 !! key "idle" = Some (float64_of_int (Idle st)) /\
     gauges w1 !! key "inuse" = Some (float64_of_int (InUse st)) /\
     gauges w1 !! key "open" = Some (float64_of_int (OpenConnections st)) /\
     (forall k, k <> key "idle" -> k <> key "inuse" -> k <> key "open" ->
        gauges w1 !! k = gauges w0 !! k)) /\
  (forall db n w0,
     exists evs,
       trace (run_goroutine P (metricsReporter s db) n w0).2 = (trace w0 ++ evs)%list /\
       length evs = (4 * n)%nat /\
       Forall (reporter_event s db) evs).
Proof.
  split; [| split; [| split]]; cycle 3.
  { intros db n w0. destruct (run_goroutine_trace P s db n w0) as (evs & H1 & H2 & H3 & _).
    exists evs. auto. }
  - destruct (Connect_trace P s w) as (evs & Htr & Hct & _).
    exists evs. split; [exact Htr |].
    destruct (Connect P s w) as [r w']. simpl in *.
    intros g Hg.
    inversion Hct as [e He | gev e He Hgt | gev db e He Hgt
                      | gev mev db e He Hgt Hmev | gev mev db He Hgt Hmev];
      subst; clear Hct; trace_cases.
    exists db,
      (gev ++ [EvOpen (path s) (inr db); EvPing db None; EvLedgerEnsure db]
           ++ mev ++ [EvMigrate db None])%list.
    split; [reflexivity | split; [reflexivity | split]].
    { rewrite <- !app_assoc. reflexivity. }
    split; [in_trace | split; [in_trace | split; [in_trace |]]].
    intros g' Hg'. trace_cases.
  - intros db. reflexivity.
  - intros db w0 st w1 key. subst w1. rewrite tick_run. simpl. fold st.
    assert (Hio : key "idle" <> key "open") by (unfold key; intros H; simplify_list_eq).
    assert (Hiu : key "idle" <> key "inuse") by (unfold key; intros H; simplify_list_eq).
    assert (Huo : key "inuse" <> key "open") by (unfold key; intros H; simplify_list_eq).
    split; [reflexivity |].
    split; [| split; [| split]].
    + rewrite lookup_insert_ne, lookup_insert_ne, lookup_insert_eq by auto. reflexivity.
    + rewrite lookup_insert_ne, lookup_insert_eq by auto. reflexivity.
    + apply lookup_insert_eq.
    + intros k H1 H2 H3. rewrite !lookup_insert_ne by auto. reflexivity.
Qed.

(** ** Process-wide initialization guard *)

Lemma version_calls_app (l1 l2 : list Event) :
  version_calls (l1 ++ l2) = (version_calls l1 + version_calls l2)%nat.
Proof. unfold version_calls. rewrite List.filter_app, length_app. reflexivity. Qed.

Lemma version_calls_none (l : list Event) :
  Forall (fun ev => is_version ev = false) l -> version_calls l = 0%nat.
Proof.
  unfold version_calls. induction 1 as [|ev l Hev _ IH]; [reflexivity |].
  simpl. rewrite Hev. exact IH.
Qed.

Lemma engine_not_version (mev : list Event) :
  Forall (fun ev => engine_event ev = true) mev ->
  Forall (fun ev => is_version ev = false) mev.
Proof.
  intros H. eapply Forall_impl; [exact H |].
  intros [] Hev; simpl in *; congruence.
Qed.

Lemma GuardTrace_versions (s : sqlite) (fired : bool) (gev : list Event) :
  GuardTrace s fired gev ->
  (version_calls gev <= if fired then 0 else 1)%nat.
Proof. intros H. inversion H; unfold version_calls; simpl; lia. Qed.

Lemma version_calls_guarded (s : sqlite) (fired : bool) (gev rest : list Event) :
  GuardTrace s fired gev ->
  Forall (fun ev => is_version ev = false) rest ->
  (version_calls (gev ++ rest) <= if fired then 0 else 1)%nat.
Proof.
  intros Hg Hrest. rewrite version_calls_app, (version_calls_none rest Hrest).
  apply GuardTrace_versions in Hg. lia.
Qed.

Lemma ConnectTrace_versions (s : sqlite) (fired : bool) (r : option sql_DB * goerror)
      (evs : list Event) :
  ConnectTrace s fired r evs ->
  (version_calls evs <= if fired then 0 else 1)%nat.
Proof.
  intros H.
  inversion H as [e He | gev e He Hgt | gev db e He Hgt
                 | gev mev db e He Hgt Hmev | gev mev db He Hgt Hmev];
    subst.
  - unfold version_calls. simpl. lia.
  - apply (version_calls_guarded s); [exact Hgt | repeat constructor].
  - apply (version_calls_guarded s); [exact Hgt | repeat constructor].
  - apply (version_calls_guarded s); [exact Hgt |].
    apply Forall_app. split; [repeat constructor |].
    apply Forall_app. split; [apply engine_not_version, Hmev | repeat constructor].
  - apply (version_calls_guarded s); [exact Hgt |].
    apply Forall_app. split; [repeat constructor |].
    apply Forall_app. split; [apply engine_not_version, Hmev | repeat constructor].
Qed.

Lemma Connect_gate_inv (P : Platform) (s : sqlite) (w : World) :
  gate_inv w -> gate_inv (Connect P s w).2.
Proof.
  unfold gate_inv. intros Hinv.
  destruct (err s) as [e|] eqn:Herr.
  - rewrite (Connect_stored P s e w Herr). exact Hinv.
  - destruct (Connect_trace P s w) as (evs & Htr & Hct & Hfired).
    rewrite Htr, (Hfired Herr), version_calls_app.
    apply ConnectTrace_versions in Hct.
    destruct (sqliteVersionLogOnce w); lia.
Qed.

Lemma connect_all_gate_inv (P : Platform) (ss : list sqlite) :
  forall w, gate_inv w -> gate_inv (connect_all P ss w).2.
Proof.
  induction ss as [|s rest IH]; intros w Hinv; [exact Hinv |].
  simpl. rewrite !bind_run. simpl. apply IH, Connect_gate_inv, Hinv.
Qed.

(** C8. Over any sequence of [Connect] calls of any providers since the
    start of the process, the guarded action runs at most once. And in
    any [Connect] in which it runs, whatever version string it read (the
    empty one included), the provider's path is opened, and an error of
    that [Connect] is the one reported by the open, the ping or the
    migration. *)
Theorem version_logged_at_most_once (P : Platform) :
  (forall (files : gmap string File) (ss : list sqlite),
     (version_calls (trace (connect_all P ss (process_start files)).2) <= 1)%nat) /\
  (forall (s : sqlite) (w : World),
     exists evs,
       trace (Connect P s w).2 = (trace w ++ evs)%list /\
       forall v, EvVersion v ∈ evs ->
         (exists r, EvOpen (path s) r ∈ evs) /\
         (forall e, (Connect P s w).1.2 = Some e ->
            (exists dsn, EvOpen dsn (inl e) ∈ evs) \/
            (exists db, EvPing db (Some e) ∈ evs) \/
            (exists db, EvMigrate db (Some e) ∈ evs))).
Proof.
  split.
  - intros files ss.
    assert (H : gate_inv (connect_all P ss (process_start files)).2).
    { apply connect_all_gate_inv. unfold gate_inv, version_calls. simpl. lia. }
    unfold gate_inv in H.
    destruct (sqliteVersionLogOnce (connect_all P ss (process_start files)).2); lia.
  - intros s w.
    destruct (Connect_trace P s w) as (evs & Htr & Hct & _).
    exists evs. split; [exact Htr |].
    destruct (Connect P s w) as [r w']. simpl in *.
    intros v Hv.
    inversion Hct as [e He | gev e He Hgt | gev db e He Hgt
                     | gev mev db e He Hgt Hmev | gev mev db He Hgt Hmev];
      subst; clear Hct.
    + inversion Hv.
    + split; [eexists; in_trace |].
      intros e' He'. simpl in He'. simplify_eq. left. eexists. in_trace.
    + split; [eexists; in_trace |].
      intros e' He'. simpl in He'. simplify_eq. right. left. eexists. in_trace.
    + split; [eexists; in_trace |].
      intros e' He'. simpl in He'. simplify_eq. right. right. eexists. in_trace.
    + split; [eexists; in_trace |].
      intros e' He'. discriminate.
Qed.

Lemma version_logged_at_most_once_witness :
  version_calls
    (trace (connect_all Scenario.unreachable
              [Scenario.provider; Scenario.failed_provider; Scenario.provider]
              (process_start ∅)).2) = 1%nat /\
  (version_calls
     (trace (connect_all Scenario.unreachable
               [Scenario.provider; Scenario.failed_provider; Scenario.provider]
               (process_start ∅)).2) <= 1)%nat.
Proof.
  split; [vm_compute; reflexivity |].
  apply (proj1 (version_logged_at_most_once Scenario.unreachable)).
Defined.

(** ** Test harness *)

Lemma within_self (root : string) : within root root = true.
Proof. unfold within. rewrite String.eqb_refl. reflexivity. Qed.

Lemma RemoveAll_run (P : Platform) (p : string) (w : World) :
  let res := (os_RemoveAll P p w).1 in
  let w' := (os_RemoveAll P p w).2 in
  trace w' = (trace w ++ [EvRemoveAll p res])%list /\
  (res = None -> forall q, within p q = true -> fs w' !! q = None) /\
  (forall q, within p q = false -> fs w' !! q = fs w !! q).
Proof.
  unfold os_RemoveAll.
  destruct (RemoveAll_result P p w) as [[e removed]|]; simpl.
  - split; [reflexivity | split; [discriminate |]].
    intros q Hq. destruct (fs w !! q) as [f|] eqn:Hf.
    + apply map_lookup_filter_Some. split; [exact Hf |]. simpl.
      intros [Hin _]. congruence.
    + apply map_lookup_filter_None. left. exact Hf.
  - split; [reflexivity | split].
    + intros _ q Hq. apply map_lookup_filter_None. right.
      intros f _. simpl. congruence.
    + intros q Hq. destruct (fs w !! q) as [f|] eqn:Hf.
      * apply map_lookup_filter_Some. split; [exact Hf | exact Hq].
      * apply map_lookup_filter_None. left. exact Hf.
Qed.

(** C9. [Close] of a test database: when closing the handle fails with
    [e], the result is [e], nothing is removed (the file system is as it
    was and [os.RemoveAll] is not called); when the handle closes,
    [os.RemoveAll] is called on the directory and its result is returned.
    For the directory of a harness, a clean path as [ioutil.TempDir]
    returns it, a nil result means that neither the directory nor
    anything under it is left, and no other path is touched. *)
Theorem TestSQLiteDB_Close_result (P : Platform) (r : TestSQLiteDB) (w : World) :
  let res := (TestSQLiteDB_Close P r w).1 in
  let w' := (TestSQLiteDB_Close P r w).2 in
  (forall e, Close_result P (DB r) w = Some e ->
     res = Some e /\
     fs w' = fs w /\
     trace w' = (trace w ++ [EvClose (DB r) (Some e)])%list) /\
  (Close_result P (DB r) w = None ->
     trace w' = (trace w ++ [EvClose (DB r) None; EvRemoveAll (dir r) res])%list /\
     res = (os_RemoveAll P (dir r) (record (EvClose (DB r) None) w)).1 /\
     (clean_dir (dir r) = true ->
        (res = None ->
           fs w' !! dir r = None /\
           forall q, within (dir r) q = true -> fs w' !! q = None) /\
        (forall q, within (dir r) q = false -> fs w' !! q = fs w !! q))).
Proof.
  unfold TestSQLiteDB_Close. rewrite bind_run. unfold Close. simpl. split.
  - intros e He. rewrite He. simpl. auto.
  - intros He. rewrite He. simpl.
    destruct (RemoveAll_run P (dir r) (record (EvClose (DB r) None) w)) as (Htr & Hgone & Hkept).
    split; [rewrite Htr; simpl; rewrite <- app_assoc; reflexivity |].
    split; [reflexivity |]. intros _. split; [| exact Hkept].
    intros Hres. split; [apply (Hgone Hres), within_self | exact (Hgone Hres)].
Qed.

Example clean_dir_of_harness : clean_dir (dir Scenario.harness) = true.
Proof. reflexivity. Qed.

Example clean_dir_rejects :
  map clean_dir [""; "/"; "/tmp/customers-sqlite1/"; "/tmp//x"; "/tmp/./x"; "/tmp/../x"; "."; ".."]
    = [false; false; false; false; false; false; false; false].
Proof. reflexivity. Qed.

Lemma TestSQLiteDB_Close_result_witness :
  ((TestSQLiteDB_Close Scenario.unreachable Scenario.harness
      (process_start Scenario.harness_files)).1 = Some Scenario.busy /\
   fs (TestSQLiteDB_Close Scenario.unreachable Scenario.harness
         (process_start Scenario.harness_files)).2 = Scenario.harness_files) /\
  ((TestSQLiteDB_Close Scenario.healthy Scenario.harness
      (process_start Scenario.harness_files)).1 = None /\
   fs (TestSQLiteDB_Close Scenario.healthy Scenario.harness
         (process_start Scenario.harness_files)).2 !! "/tmp/customers-sqlite1" = None /\
   fs (TestSQLiteDB_Close Scenario.healthy Scenario.harness
         (process_start Scenario.harness_files)).2 !! "/tmp/customers-sqlite12" = Some Directory).
Proof.
  split.
  - destruct (proj1 (TestSQLiteDB_Close_result Scenario.unreachable Scenario.harness
                       (process_start Scenario.harness_files)) Scenario.busy eq_refl)
      as (Hres & Hfs & _).
    split; [exact Hres | exact Hfs].
  - destruct (proj2 (TestSQLiteDB_Close_result Scenario.healthy Scenario.harness
                       (process_start Scenario.harness_files)) eq_refl)
      as (_ & _ & Hclean).
    destruct (Hclean eq_refl) as (Hgone & _).
    split; [vm_compute; reflexivity |].
    split; [apply Hgone; vm_compute; reflexivity | vm_compute; reflexivity].
Defined.

(** ** The statements above on concrete runs *)

Lemma SqliteUniqueViolation_panics_only_in_Error_witness :
  Interface.SqliteUniqueViolation (Interface.value (OtherError "sql: database is closed"))
    = Some false.
Proof.
  apply (proj2 (SqliteUniqueViolation_panics_only_in_Error
                  (Interface.value (OtherError "sql: database is closed")))
           "sql: database is closed").
  - reflexivity.
  - intros H. apply Contains_spec in H. vm_compute in H. discriminate.
  - intros [e [H _]]. discriminate.
Defined.

Lemma metrics_after_migration_witness :
  (exists db, (Connect Scenario.healthy Scenario.provider (process_start ∅)).1 = (Some db, None)) /\
  gauges (metricsReporter_tick Scenario.healthy Scenario.provider Scenario.handle
            (process_start ∅)).2 !! ("sqlite_connections", ["state"; "idle"])
    = Some (float64_of_int 2).
Proof.
  destruct (metrics_after_migration Scenario.healthy Scenario.provider (process_start ∅))
    as ((evs & Htr & Hgo) & _ & Htick & _).
  split.
  - vm_compute in Htr. subst evs.
    destruct (Hgo (metricsReporter Scenario.provider Scenario.handle))
      as (db & before & _ & Hres & _).
    + repeat constructor.
    + exists db. exact Hres.
  - exact (proj1 (proj2 (Htick Scenario.handle (process_start ∅)))).
Defined.

(** * Further properties of the package *)

(** ** The resolved path *)

Lemma getSqlitePath_cases (environ : gmap string string) :
  getSqlitePath environ = "customers.db" \/
  (getSqlitePath environ = os_Getenv environ "SQLITE_DB_PATH" /\
   os_Getenv environ "SQLITE_DB_PATH" <> "" /\
   strings.Contains (os_Getenv environ "SQLITE_DB_PATH") ".." = false).
Proof.
  unfold getSqlitePath.
  destruct (String.eqb_spec (os_Getenv environ "SQLITE_DB_PATH") "") as [He | Hne]; simpl.
  - left. reflexivity.
  - destruct (strings.Contains (os_Getenv environ "SQLITE_DB_PATH") "..") eqn:Hc.
    + left. reflexivity.
    + right. auto.
Qed.

(** X1. Whatever the environment holds, the path [getSqlitePath] returns
    is not empty and contains no "..": the result can always be handed to
    [sqliteConnection]. *)
Theorem getSqlitePath_safe (environ : gmap string string) :
  getSqlitePath environ <> "" /\ ~ strings.occurs_in ".." (getSqlitePath environ).
Proof.
  destruct (getSqlitePath_cases environ) as [-> | (-> & Hne & Hc)].
  - split; [discriminate |]. apply Contains_false. reflexivity.
  - split; [exact Hne |]. apply Contains_false. exact Hc.
Qed.

(** X2. [getSqlitePath] reads no other variable than SQLITE_DB_PATH:
    setting or unsetting any other variable leaves its result as it
    was. *)
Theorem getSqlitePath_other_variables (environ : gmap string string) (k v : string) :
  k <> "SQLITE_DB_PATH" ->
  getSqlitePath (<[k := v]> environ) = getSqlitePath environ /\
  getSqlitePath (delete k environ) = getSqlitePath environ.
Proof.
  intros Hk. unfold getSqlitePath, os_Getenv.
  rewrite lookup_insert_ne, lookup_delete_ne by exact Hk. auto.
Qed.

Lemma getSqlitePath_other_variables_witness :
  getSqlitePath (<["HOME" := "/root/.."]> {[ "SQLITE_DB_PATH" := "data/customers.db" ]})
    = getSqlitePath {[ "SQLITE_DB_PATH" := "data/customers.db" ]}.
Proof.
  apply (getSqlitePath_other_variables {[ "SQLITE_DB_PATH" := "data/customers.db" ]}
           "HOME" "/root/..").
  intros H. vm_compute in H. discriminate.
Defined.

Lemma os_Getenv_set (environ : gmap string string) (k v : string) :
  os_Getenv (<[k := v]> environ) k = v.
Proof. unfold os_Getenv. rewrite lookup_insert_eq. reflexivity. Qed.

(** X3. The resolved path is a fixed point: a process configured with
    the path that [getSqlitePath] returned resolves to that same path. *)
Theorem getSqlitePath_fixed_point (environ : gmap string string) :
  getSqlitePath (<["SQLITE_DB_PATH" := getSqlitePath environ]> environ)
    = getSqlitePath environ.
Proof.
  assert (Hne : getSqlitePath environ <> "" /\
                strings.Contains (getSqlitePath environ) ".." = false).
  { destruct (getSqlitePath_cases environ) as [-> | (-> & Hne & Hc)]; split;
      [discriminate | reflexivity | exact Hne | exact Hc]. }
  destruct Hne as [Hne Hdots].
  unfold getSqlitePath at 1. rewrite os_Getenv_set.
  cbv zeta. rewrite Hdots, orb_false_r.
  destruct (String.eqb_spec (getSqlitePath environ) ""); [contradiction | reflexivity].
Qed.

(** ** The classifier on the error of a failed provider *)

Lemma Contains_after_prefix (msg : string) :
  strings.Contains ("sqlite had error " +:+ msg) "UNIQUE constraint failed"
    = strings.Contains msg "UNIQUE constraint failed".
Proof. reflexivity. Qed.

(** X4. The error that [Connect] returns for a provider in the failed
    state is classified by its text alone: [SqliteUniqueViolation] is true
    on it exactly when the text of the stored error contains "UNIQUE
    constraint failed"; the constraint code of a stored [sqlite3.Error] is
    lost in the wrapping. *)
Theorem stored_error_classified_by_text (P : Platform) (s : sqlite) (e : error_value)
        (w : World) :
  err s = Some e ->
  exists b : bool,
    SqliteUniqueViolation (Connect P s w).1.2 = Some b /\
    (b = true <-> duplicate_message e).
Proof.
  intros Herr. rewrite (Connect_stored P s e w Herr).
  cbn [fst snd SqliteUniqueViolation fmt_Errorf_v Error as_sqlite3_Error].
  exists (strings.Contains (Error e) "UNIQUE constraint failed").
  split; [rewrite Contains_after_prefix; reflexivity |].
  unfold duplicate_message. apply Contains_spec.
Qed.

Lemma stored_error_classified_by_text_witness :
  SqliteUniqueViolation (err TestScenario.stored_constraint) = Some true /\
  SqliteUniqueViolation
    (Connect Scenario.healthy TestScenario.stored_constraint (process_start ∅)).1.2
    = Some false.
Proof.
  split; [reflexivity |].
  destruct (stored_error_classified_by_text Scenario.healthy TestScenario.stored_constraint
              (SqliteError (sqlite3.mkError 19 1555 "constraint failed"))
              (process_start ∅) eq_refl) as (b & Hb & Hiff).
  rewrite Hb. f_equal. destruct b; [| reflexivity].
  destruct Hiff as [Hiff _]. specialize (Hiff eq_refl).
  apply Contains_spec in Hiff. vm_compute in Hiff. discriminate.
Defined.

(** ** What a Connect leaves behind *)

Lemma fs_touched_only_refl (dsn : string) (w : World) : fs_touched_only dsn w w.
Proof. split; auto. Qed.

Lemma fs_touched_only_trans (dsn : string) (w1 w2 w3 : World) :
  fs_touched_only dsn w1 w2 -> fs_touched_only dsn w2 w3 -> fs_touched_only dsn w1 w3.
Proof.
  intros [H1 H2] [H3 H4]. split.
  - intros q Hq. rewrite (H3 q Hq). apply H1, Hq.
  - intros q Hq. apply H4, H2, Hq.
Qed.

Lemma fs_touched_only_same (dsn : string) (w w' : World) :
  fs w' = fs w -> fs_touched_only dsn w w'.
Proof. intros H. split; intros q; rewrite H; auto. Qed.

Lemma fs_touched_only_store (dsn : string) (d : Database) (w w' : World) :
  fs w' = <[dsn := DatabaseFile d]> (fs w) -> fs_touched_only dsn w w'.
Proof.
  intros H. split; intros q Hq; rewrite H.
  - apply lookup_insert_ne. congruence.
  - destruct (decide (dsn = q)) as [-> | Hne].
    + rewrite lookup_insert_eq. eauto.
    + rewrite lookup_insert_ne by exact Hne. exact Hq.
Qed.

Section ConnectWorld.

Variable P : Platform.

Lemma apply_step_files (db : sql_DB) (m : Migration) (w : World) :
  fs_touched_only (db_dsn db) w (apply_step P db m w).2.
Proof.
  unfold apply_step.
  destruct (Exec_result P (statement m) (database_at w (db_dsn db))) as [e|].
  - apply fs_touched_only_same. reflexivity.
  - eapply fs_touched_only_store. reflexivity.
Qed.

Lemma migrate_steps_files (db : sql_DB) (steps : list Migration) :
  forall w, fs_touched_only (db_dsn db) w (migrate_steps P db steps w).2.
Proof.
  induction steps as [|m rest IH]; intros w; [apply fs_touched_only_refl |].
  simpl. rewrite bind_run. unfold ledger_lookup at 1 2. rewrite !bind_run.
  unfold emit, ret. simpl.
  set (found := bool_decide (Name m ∈ ledger_rows (database_at w (db_dsn db)))).
  set (w1 := record (EvLedgerLookup db (Name m) found) w).
  assert (H1 : fs_touched_only (db_dsn db) w w1)
    by (apply fs_touched_only_same; reflexivity).
  destruct found.
  - exact (fs_touched_only_trans _ _ _ _ H1 (IH w1)).
  - rewrite bind_run. pose proof (apply_step_files db m w1) as H2.
    destruct (apply_step P db m w1) as [[e|] w2]; simpl in *.
    + exact (fs_touched_only_trans _ _ _ _ H1 H2).
    + apply (fs_touched_only_trans _ _ _ _ H1).
      exact (fs_touched_only_trans _ _ _ _ H2 (IH w2)).
Qed.

Lemma Migrate_files (steps : list Migration) (db : sql_DB) (w : World) :
  fs_touched_only (db_dsn db) w (Migrate P steps db w).2.
Proof.
  rewrite Migrate_run. simpl.
  apply (fs_touched_only_trans _ _ (ensure_ledger db w).2).
  - unfold ensure_ledger. rewrite bind_run. unfold emit, ret. simpl.
    destruct (ledger (database_at w (db_dsn db))).
    + apply fs_touched_only_same. reflexivity.
    + eapply fs_touched_only_store. reflexivity.
  - apply (fs_touched_only_trans _ _ _ _ (migrate_steps_files db steps _)).
    apply fs_touched_only_same. reflexivity.
Qed.

Lemma guard_frame (s : sqlite) (w : World) :
  fs (sqliteVersionLogOnce_Do (logVersion P s) w).2 = fs w /\
  gauges (sqliteVersionLogOnce_Do (logVersion P s) w).2 = gauges w.
Proof.
  unfold sqliteVersionLogOnce_Do.
  destruct (sqliteVersionLogOnce w); [auto |].
  unfold logVersion. rewrite bind_run. unfold sqlite3_Version. simpl.
  destruct (negb _); auto.
Qed.

(** [Connect] of a provider without a stored error, step by step. *)
Lemma Connect_unfold (s : sqlite) (w : World) :
  err s = None ->
  let w1 := (sqliteVersionLogOnce_Do (logVersion P s) w).2 in
  Connect P s w =
    match Open_result P "sqlite3" (path s) w1 with
    | Some e => ((None, Some e), record (EvOpen (path s) (inl e)) w1)
    | None =>
        let db := mkDB (opened w1) (path s) in
        let w2 := record (EvOpen (path s) (inr db)) (set_opened (S (opened w1)) w1) in
        match Ping_result P db w2 with
        | Some e => ((Some db, Some e), record (EvPing db (Some e)) w2)
        | None =>
            let r := Migrate P sqliteMigrator db (record (EvPing db None) w2) in
            match r.1 with
            | Some e => ((Some db, Some e), r.2)
            | None => ((Some db, None), record (EvGo (metricsReporter s db)) r.2)
            end
        end
    end.
Proof.
  intros Herr w1. unfold Connect. rewrite Herr, !bind_run. fold w1.
  unfold sql_Open. destruct (Open_result P "sqlite3" (path s) w1) as [e|]; simpl;
    [reflexivity |].
  rewrite bind_run. unfold Ping.
  destruct (Ping_result P _ _) as [e|]; simpl; [reflexivity |].
  rewrite bind_run.
  destruct (Migrate P sqliteMigrator _ _) as [[e|] w4]; reflexivity.
Qed.

(** The gauges, the files and the handle count after a [Connect]. *)
Lemma Connect_world (s : sqlite) (w : World) :
  gauges (Connect P s w).2 = gauges w /\
  fs_touched_only (path s) w (Connect P s w).2 /\
  match (Connect P s w).1.1 with
  | Some db => db = mkDB (opened w) (path s) /\ opened (Connect P s w).2 = S (opened w)
  | None => opened (Connect P s w).2 = opened w
  end.
Proof.
  destruct (err s) as [e|] eqn:Herr.
  - rewrite (Connect_stored P s e w Herr). simpl.
    split; [reflexivity | split; [apply fs_touched_only_refl | reflexivity]].
  - rewrite (Connect_unfold s w Herr).
    destruct (guard_run P s w) as (gev & _ & _ & Hopened & _).
    destruct (guard_frame s w) as (Hfs & Hg).
    set (w1 := (sqliteVersionLogOnce_Do (logVersion P s) w).2) in *.
    cbv zeta.
    destruct (Open_result P "sqlite3" (path s) w1) as [e|]; simpl.
    { split; [exact Hg | split; [apply fs_touched_only_same; exact Hfs | exact Hopened]]. }
    rewrite Hopened.
    set (db := mkDB (opened w) (path s)).
    set (w2 := record (EvOpen (path s) (inr db)) (set_opened (S (opened w)) w1)).
    destruct (Ping_result P db w2) as [e|]; simpl.
    { split; [exact Hg | split; [apply fs_touched_only_same; exact Hfs | auto]]. }
    set (w3 := record (EvPing db None) w2).
    destruct (Migrate_frame P sqliteMigrator db w3) as (mev & (_ & Hop & Hga & _) & _).
    pose proof (Migrate_files sqliteMigrator db w3) as Hfiles.
    assert (Hw3 : fs_touched_only (path s) w w3)
      by (apply fs_touched_only_same; exact Hfs).
    destruct (Migrate P sqliteMigrator db w3) as [[e|] w4]; simpl in *.
    + split; [rewrite Hga; exact Hg |].
      split; [exact (fs_touched_only_trans _ _ _ _ Hw3 Hfiles) | auto].
    + split; [rewrite Hga; exact Hg |].
      split; [exact (fs_touched_only_trans _ _ _ _ Hw3 Hfiles) | auto].
Qed.

End ConnectWorld.

Lemma guard_not_cleanup (l : list Event) :
  Forall (fun ev => guard_event ev = true) l ->
  Forall (fun ev => cleanup_or_metric_event ev = false) l.
Proof.
  intros H. eapply Forall_impl; [exact H |].
  intros [] Hev; simpl in *; congruence.
Qed.

Lemma engine_not_cleanup (l : list Event) :
  Forall (fun ev => engine_event ev = true) l ->
  Forall (fun ev => cleanup_or_metric_event ev = false) l.
Proof.
  intros H. eapply Forall_impl; [exact H |].
  intros [] Hev; simpl in *; congruence.
Qed.

Lemma engine_not_guard (l : list Event) :
  Forall (fun ev => engine_event ev = true) l ->
  Forall (fun ev => guard_event ev = false) l.
Proof.
  intros H. eapply Forall_impl; [exact H |].
  intros [] Hev; simpl in *; congruence.
Qed.

Lemma Connect_events_not_cleanup (P : Platform) (s : sqlite) (w : World) :
  exists evs,
    trace (Connect P s w).2 = (trace w ++ evs)%list /\
    Forall (fun ev => cleanup_or_metric_event ev = false) evs.
Proof.
  destruct (Connect_trace P s w) as (evs & Htr & Hct & _).
  exists evs. split; [exact Htr |].
  destruct (Connect P s w) as [r w']. simpl in *.
  inversion Hct as [e He | gev e He Hgt | gev db e He Hgt
                   | gev mev db e He Hgt Hmev | gev mev db He Hgt Hmev];
    subst; clear Hct;
    try (apply GuardTrace_events, guard_not_cleanup in Hgt);
    try (apply engine_not_cleanup in Hmev);
    repeat (apply Forall_app; split); try assumption; repeat constructor.
Qed.

(** X5. [Connect] never closes a handle, not even the one it returns
    with a ping or migration error, never removes a file, never reads the
    pool statistics and never writes a gauge: none of its events is of
    these kinds and the gauges are as they were. *)
Theorem Connect_leaves_cleanup_to_caller (P : Platform) (s : sqlite) (w : World) :
  exists evs,
    trace (Connect P s w).2 = (trace w ++ evs)%list /\
    Forall (fun ev => cleanup_or_metric_event ev = false) evs /\
    gauges (Connect P s w).2 = gauges w.
Proof.
  destruct (Connect_events_not_cleanup P s w) as (evs & Htr & Hev).
  destruct (Connect_world P s w) as (Hg & _ & _).
  exists evs. auto.
Qed.

(** X6. Providers in the failed state are invisible in a sequence of
    [Connect] calls: the world after connecting a list of providers is the
    world after connecting only those without a stored error. *)
Theorem connect_all_skips_failed (P : Platform) (ss : list sqlite) (w : World) :
  (connect_all P ss w).2 = (connect_all P (usable ss) w).2.
Proof.
  revert w. induction ss as [|s rest IH]; intros w; [reflexivity |].
  unfold usable. simpl. fold (usable rest).
  destruct (err s) as [e|] eqn:Herr.
  - rewrite bind_run, (Connect_stored P s e w Herr). simpl.
    rewrite bind_run. simpl. apply IH.
  - simpl. rewrite (bind_run (Connect P s)), (bind_run (Connect P s) _ w).
    rewrite !bind_run. simpl. apply IH.
Qed.

(** X7. Once the gate has fired, no [Connect] of any provider reads the
    engine's version or logs anything, whatever the provider's logger,
    and the gate stays fired. *)
Theorem later_connects_do_not_log (P : Platform) (s : sqlite) (w : World) :
  sqliteVersionLogOnce w = true ->
  exists evs,
    trace (Connect P s w).2 = (trace w ++ evs)%list /\
    Forall (fun ev => guard_event ev = false) evs /\
    sqliteVersionLogOnce (Connect P s w).2 = true.
Proof.
  intros Hfired.
  destruct (Connect_trace P s w) as (evs & Htr & Hct & Hgate).
  exists evs. split; [exact Htr |]. split.
  - rewrite Hfired in Hct. destruct (Connect P s w) as [r w']. simpl in *.
    inversion Hct as [e He | gev e He Hgt | gev db e He Hgt
                     | gev mev db e He Hgt Hmev | gev mev db He Hgt Hmev];
      subst; clear Hct;
      try (inversion Hgt; subst; clear Hgt);
      try (apply engine_not_guard in Hmev);
      repeat (apply Forall_app; split); try assumption; repeat constructor.
  - destruct (err s) as [e|] eqn:Herr; [| auto].
    rewrite (Connect_stored P s e w Herr). exact Hfired.
Qed.

Lemma later_connects_do_not_log_witness :
  let w1 := (Connect Scenario.healthy Scenario.provider (process_start ∅)).2 in
  sqliteVersionLogOnce w1 = true /\
  sqliteVersionLogOnce
    (Connect Scenario.healthy (sqliteConnection 9%nat "other.db") w1).2 = true.
Proof.
  intros w1. split; [vm_compute; reflexivity |].
  destruct (later_connects_do_not_log Scenario.healthy (sqliteConnection 9%nat "other.db") w1)
    as (evs & _ & _ & H).
  - vm_compute. reflexivity.
  - exact H.
Defined.

Ltac forall_events :=
  repeat first [ assumption
               | apply List.Forall_nil
               | apply List.Forall_cons; [reflexivity |]
               | apply Forall_app; split ].

Section FirstConnect.

Variable P : Platform.

Lemma guard_exact (s : sqlite) (w : World) :
  sqliteVersionLogOnce w = false ->
  let v := (Version_result P w).1.1 in
  trace (sqliteVersionLogOnce_Do (logVersion P s) w).2 =
    (trace w ++ EvVersion v ::
       (if String.eqb v "" then []
        else [EvLog (logger s) ["main"; "sqlite version " +:+ v]]))%list.
Proof.
  intros Hgate v. unfold sqliteVersionLogOnce_Do. rewrite Hgate.
  unfold logVersion. rewrite bind_run. unfold sqlite3_Version. simpl. fold v.
  destruct (String.eqb v ""); simpl; [reflexivity |].
  rewrite <- app_assoc. reflexivity.
Qed.

Lemma Connect_after_guard (s : sqlite) (w : World) :
  err s = None ->
  exists rest,
    trace (Connect P s w).2 =
      (trace (sqliteVersionLogOnce_Do (logVersion P s) w).2 ++ rest)%list /\
    Forall (fun ev => guard_event ev = false) rest.
Proof.
  intros Herr. rewrite (Connect_unfold P s w Herr).
  set (w1 := (sqliteVersionLogOnce_Do (logVersion P s) w).2). cbv zeta.
  destruct (Open_result P "sqlite3" (path s) w1) as [e|]; simpl.
  { eexists. split; [reflexivity | repeat constructor]. }
  set (db := mkDB (opened w1) (path s)).
  set (w2 := record (EvOpen (path s) (inr db)) (set_opened (S (opened w1)) w1)).
  destruct (Ping_result P db w2) as [e|]; simpl.
  { eexists. rewrite <- app_assoc. split; [reflexivity | repeat constructor]. }
  set (w3 := record (EvPing db None) w2).
  destruct (Migrate_frame P sqliteMigrator db w3) as (mev & (_ & _ & _ & Htr) & Hmev).
  apply engine_not_guard in Hmev.
  destruct (Migrate P sqliteMigrator db w3) as [[e|] w4]; simpl in *.
  - eexists. rewrite Htr, <- !app_assoc. split; [reflexivity |]. forall_events.
  - eexists. rewrite Htr, <- !app_assoc. split; [reflexivity |]. forall_events.
Qed.

End FirstConnect.

(** X8. While the gate has not fired, a [Connect] of a provider without a
    stored error starts by reading the engine's version; if the version is
    not empty its next event is the line "main", "sqlite version v" on that
    provider's own logger, and nothing else is logged or read in the call.
    The gate is fired afterwards, whether or not the call succeeds. *)
Theorem first_connect_logs_version (P : Platform) (s : sqlite) (w : World) :
  err s = None ->
  sqliteVersionLogOnce w = false ->
  let v := (Version_result P w).1.1 in
  exists rest,
    trace (Connect P s w).2 =
      (trace w ++
         EvVersion v ::
         (if String.eqb v "" then []
          else [EvLog (logger s) ["main"; "sqlite version " +:+ v]]) ++ rest)%list /\
    Forall (fun ev => guard_event ev = false) rest /\
    sqliteVersionLogOnce (Connect P s w).2 = true.
Proof.
  intros Herr Hgate v.
  destruct (Connect_after_guard P s w Herr) as (rest & Htr & Hrest).
  destruct (Connect_trace P s w) as (_ & _ & _ & Hfired).
  exists rest. split; [| split; [exact Hrest | exact (Hfired Herr)]].
  rewrite Htr, (guard_exact P s w Hgate). fold v.
  rewrite <- app_assoc. reflexivity.
Qed.

Lemma first_connect_logs_version_witness :
  exists rest,
    trace (Connect Scenario.healthy Scenario.provider (process_start ∅)).2 =
      (EvVersion "3.30.1" :: EvLog 7%nat ["main"; "sqlite version 3.30.1"] :: rest)%list.
Proof.
  destruct (first_connect_logs_version Scenario.healthy Scenario.provider (process_start ∅)
              eq_refl eq_refl) as (rest & Htr & _).
  exists rest. exact Htr.
Defined.

(** X9. [Connect] never returns a nil error without a handle: when the
    error is nil the handle is not nil, it was opened on the provider's
    path in this call, its ping and its migration reported no error, and
    the last thing the call did was to start its Metrics Reporter. *)
Theorem Connect_nil_error_means_ready (P : Platform) (s : sqlite) (w : World) :
  (Connect P s w).1.2 = None ->
  exists db evs,
    (Connect P s w).1.1 = Some db /\
    db_dsn db = path s /\
    trace (Connect P s w).2 = (trace w ++ evs)%list /\
    EvOpen (path s) (inr db) ∈ evs /\
    EvPing db None ∈ evs /\
    EvMigrate db None ∈ evs /\
    last evs = Some (EvGo (metricsReporter s db)).
Proof.
  intros Hnil.
  destruct (Connect_trace P s w) as (evs & Htr & Hct & _).
  pose proof (Connect_world P s w) as (_ & _ & Hdb).
  destruct (Connect P s w) as [[h e] w']. simpl in *. subst e.
  inversion Hct as [e He | gev e He Hgt | gev db e He Hgt
                   | gev mev db e He Hgt Hmev | gev mev db He Hgt Hmev];
    subst; clear Hct.
  destruct Hdb as [Hdb _].
  exists db. eexists. split; [reflexivity |].
  split; [rewrite Hdb; reflexivity |].
  split; [exact Htr |].
  split; [in_trace | split; [in_trace | split; [in_trace |]]].
  rewrite !app_assoc.
  change [EvMigrate db None; EvGo (metricsReporter s db)]
    with ([EvMigrate db None] ++ [EvGo (metricsReporter s db)])%list.
  rewrite app_assoc. apply last_snoc.
Qed.

Lemma Connect_nil_error_means_ready_witness :
  exists db,
    (Connect Scenario.healthy Scenario.provider (process_start ∅)).1.1 = Some db /\
    db_dsn db = "customers.db".
Proof.
  destruct (Connect_nil_error_means_ready Scenario.healthy Scenario.provider (process_start ∅))
    as (db & evs & Hdb & Hdsn & _).
  - vm_compute. reflexivity.
  - exists db. split; [exact Hdb | exact Hdsn].
Defined.

(** X10. [Connect] hands every handle it opens to its caller: the call
    opens a handle exactly when it returns one, on the provider's path,
    and that is the handle it returns; a call that returns no handle has
    opened none. *)
Theorem Connect_returns_what_it_opens (P : Platform) (s : sqlite) (w : World) :
  exists evs,
    trace (Connect P s w).2 = (trace w ++ evs)%list /\
    (forall dsn db,
       EvOpen dsn (inr db) ∈ evs <-> (Connect P s w).1.1 = Some db /\ dsn = path s) /\
    match (Connect P s w).1.1 with
    | Some db => db_dsn db = path s /\ opened (Connect P s w).2 = S (opened w)
    | None => opened (Connect P s w).2 = opened w
    end.
Proof.
  destruct (Connect_trace P s w) as (evs & Htr & Hct & _).
  pose proof (Connect_world P s w) as (_ & _ & Hdb).
  exists evs. split; [exact Htr |].
  destruct (Connect P s w) as [[h e] w']. simpl in *. split.
  - intros dsn db0.
    inversion Hct as [e0 He | gev e0 He Hgt | gev db e0 He Hgt
                     | gev mev db e0 He Hgt Hmev | gev mev db He Hgt Hmev];
      subst; clear Hct;
      (split; [intros Hin; trace_cases; auto | intros [Hh ->]; simplify_eq; in_trace]).
  - destruct h as [db|]; [| exact Hdb].
    destruct Hdb as [-> Hop]. auto.
Qed.

(** ** Metrics of several providers *)

(** X11. The gauge has no label for the handle or the path: the reporters
    of any two providers built by [sqliteConnection] write the same three
    series, so after a tick of one and then a tick of the other the series
    hold the statistics of the second handle only, and no other series
    exists than before. *)
Theorem reporters_share_series (P : Platform) (l1 l2 : Logger) (p1 p2 : string)
        (db1 db2 : sql_DB) (w : World) :
  let w1 := (metricsReporter_tick P (sqliteConnection l1 p1) db1 w).2 in
  let w2 := (metricsReporter_tick P (sqliteConnection l2 p2) db2 w1).2 in
  let st := Stats_result P db2 w1 in
  gauges w2 !! state_key "idle" = Some (float64_of_int (Idle st)) /\
  gauges w2 !! state_key "inuse" = Some (float64_of_int (InUse st)) /\
  gauges w2 !! state_key "open" = Some (float64_of_int (OpenConnections st)) /\
  dom (gauges w2) = dom (gauges w1) /\
  dom (gauges w1) = dom (gauges w) ∪ {[ state_key "idle"; state_key "inuse"; state_key "open" ]}.
Proof.
  intros w1 w2 st.
  assert (H2 : gauges w2 =
            <[state_key "open" := float64_of_int (OpenConnections st)]>
              (<[state_key "inuse" := float64_of_int (InUse st)]>
                 (<[state_key "idle" := float64_of_int (Idle st)]> (gauges w1))))
    by (subst w2; rewrite tick_run; reflexivity).
  assert (H1 : dom (gauges w1) =
            dom (gauges w) ∪ {[ state_key "idle"; state_key "inuse"; state_key "open" ]}).
  { subst w1. rewrite tick_run. simpl. rewrite !dom_insert_L.
    apply set_eq. intros k. rewrite !elem_of_union, !elem_of_singleton.
    unfold state_key. simpl. tauto. }
  rewrite H2. unfold state_key in *.
  split; [| split; [| split; [| split]]].
  - rewrite lookup_insert_ne, lookup_insert_ne, lookup_insert_eq by (intros H; simplify_list_eq).
    reflexivity.
  - rewrite lookup_insert_ne, lookup_insert_eq by (intros H; simplify_list_eq). reflexivity.
  - apply lookup_insert_eq.
  - rewrite !dom_insert_L, H1.
    apply set_eq. intros k. rewrite !elem_of_union, !elem_of_singleton. tauto.
  - exact H1.
Qed.

Lemma run_goroutine_last (P : Platform) (g : Goroutine) (n : nat) :
  forall w,
    (run_goroutine P g (S n) w).2 =
      (metricsReporter_tick P (task_provider g) (task_db g) (run_goroutine P g n w).2).2.
Proof.
  induction n as [|n IH]; intros w.
  - change (run_goroutine P g 1 w)
      with ((metricsReporter_tick P (task_provider g) (task_db g) >> ret tt) w).
    rewrite bind_run. reflexivity.
  - change (run_goroutine P g (S (S n)) w)
      with ((metricsReporter_tick P (task_provider g) (task_db g) >> run_goroutine P g (S n)) w).
    rewrite bind_run, IH. simpl. rewrite bind_run. reflexivity.
Qed.

(** X12. The gauges are last value wins: after any positive number of
    ticks of a reporter, its three series hold the statistics read at the
    last tick, whatever the earlier ticks read. *)
Theorem reporter_last_tick_wins (P : Platform) (s : sqlite) (db : sql_DB) (n : nat)
        (w : World) :
  let before_last := (run_goroutine P (metricsReporter s db) n w).2 in
  let st := Stats_result P db before_last in
  let w' := (run_goroutine P (metricsReporter s db) (S n) w).2 in
  let key state :=
    (gauge_name (connections s), (lvs (connections s) ++ ["state"; state])%list) in
  gauges w' !! key "idle" = Some (float64_of_int (Idle st)) /\
  gauges w' !! key "inuse" = Some (float64_of_int (InUse st)) /\
  gauges w' !! key "open" = Some (float64_of_int (OpenConnections st)).
Proof.
  intros before_last st w' key. subst w'.
  rewrite run_goroutine_last.
  change (task_provider (metricsReporter s db)) with s.
  change (task_db (metricsReporter s db)) with db.
  fold before_last. rewrite tick_run. cbv zeta. cbn [gauges]. fold st.
  assert (Hio : key "idle" <> key "open") by (unfold key; intros H; simplify_list_eq).
  assert (Hiu : key "idle" <> key "inuse") by (unfold key; intros H; simplify_list_eq).
  assert (Huo : key "inuse" <> key "open") by (unfold key; intros H; simplify_list_eq).
  split; [| split].
  - rewrite lookup_insert_ne, lookup_insert_ne, lookup_insert_eq by auto. reflexivity.
  - rewrite lookup_insert_ne, lookup_insert_eq by auto. reflexivity.
  - apply lookup_insert_eq.
Qed.

(** ** The registered steps *)

(** X13. The twelve steps registered in [sqliteMigrator] have pairwise
    distinct names and pairwise distinct statements, and every statement
    is a "create table if not exists". *)
Theorem sqliteMigrator_steps_distinct :
  length sqliteMigrator = 12%nat /\
  NoDup (map Name sqliteMigrator) /\
  NoDup (map statement sqliteMigrator) /\
  Forall (fun m => strings.HasPrefix (statement m) "create table if not exists " = true)
    sqliteMigrator.
Proof.
  split; [reflexivity |].
  split; [refine (bool_decide_unpack _ _); vm_compute; exact I |].
  split; [refine (bool_decide_unpack _ _); vm_compute; exact I |].
  repeat constructor.
Qed.

(** ** The constructor of the test harness *)

Section Harness.

Variable P : Platform.
Variable T : TestPlatform.

Lemma CreateTestSqliteDB_unfold (w : World) :
  CreateTestSqliteDB P T w =
    match TempDir_result T "" "customers-sqlite" w with
    | inl e => (inl ("sqlite test: " +:+ Error e), w)
    | inr d =>
        let c := Connect P (sqliteConnection log_NewNopLogger
                              (filepath_Join T d "customers.db"))
                   (set_fs (<[d := Directory]> (fs w)) w) in
        match c.1.2 with
        | Some e => (inl ("sqlite test: " +:+ Error e), c.2)
        | None => (inr (c.1.1, d), c.2)
        end
    end.
Proof.
  unfold CreateTestSqliteDB. rewrite bind_run. unfold ioutil_TempDir.
  destruct (TempDir_result T "" "customers-sqlite" w) as [e | d]; [reflexivity |].
  cbn [fst snd]. rewrite bind_run. cbv zeta.
  destruct (Connect P _ _) as [[h [e|]] w']; reflexivity.
Qed.

Lemma Connect_after_TempDir (d : string) (s : sqlite) (w : World) :
  let w1 := set_fs (<[d := Directory]> (fs w)) w in
  is_Some (fs (Connect P s w1).2 !! d) /\
  exists evs,
    trace (Connect P s w1).2 = (trace w ++ evs)%list /\
    Forall (fun ev => cleanup_or_metric_event ev = false) evs.
Proof.
  intros w1. split.
  - destruct (Connect_world P s w1) as (_ & [_ Hkeep] & _).
    apply Hkeep. subst w1. simpl. rewrite lookup_insert_eq. eauto.
  - exact (Connect_events_not_cleanup P s w1).
Qed.

End Harness.

(** X14. When [CreateTestSqliteDB] stops the test, either
    [ioutil.TempDir] failed with an error [e], the message is
    "sqlite test: " followed by the text of [e] and the world is as it
    was; or [TempDir] created a directory, the [Connect] of the provider
    on [filepath.Join(dir, "customers.db")] returned the error [e], the
    message is "sqlite test: " followed by the text of [e], and the
    temporary directory is still there. In both cases no handle has been
    closed and nothing has been removed. *)
Theorem CreateTestSqliteDB_fatal (P : Platform) (T : TestPlatform) (w : World) (msg : string) :
  (CreateTestSqliteDB P T w).1 = inl msg ->
  (exists evs,
     trace (CreateTestSqliteDB P T w).2 = (trace w ++ evs)%list /\
     Forall (fun ev => cleanup_or_metric_event ev = false) evs) /\
  ((exists e,
      TempDir_result T "" "customers-sqlite" w = inl e /\
      msg = "sqlite test: " +:+ Error e /\
      (CreateTestSqliteDB P T w).2 = w) \/
   (exists d e,
      let s := sqliteConnection log_NewNopLogger (filepath_Join T d "customers.db") in
      let w1 := set_fs (<[d := Directory]> (fs w)) w in
      TempDir_result T "" "customers-sqlite" w = inr d /\
      (Connect P s w1).1.2 = Some e /\
      msg = "sqlite test: " +:+ Error e /\
      (CreateTestSqliteDB P T w).2 = (Connect P s w1).2 /\
      is_Some (fs (CreateTestSqliteDB P T w).2 !! d))).
Proof.
  rewrite CreateTestSqliteDB_unfold.
  destruct (TempDir_result T "" "customers-sqlite" w) as [e | d]; simpl.
  - intros H. injection H as <-. split.
    + exists []. rewrite app_nil_r. split; [reflexivity | constructor].
    + left. exists e. auto.
  - destruct (Connect_after_TempDir P d
                (sqliteConnection log_NewNopLogger (filepath_Join T d "customers.db")) w)
      as (Hdir & evs & Htr & Hev).
    destruct (Connect P _ _) as [[h [e|]] w'] eqn:Hc; simpl in *; intros H; [| discriminate].
    injection H as <-. split.
    + exists evs. auto.
    + right. exists d, e. cbv zeta. rewrite Hc. simpl. auto 10.
Qed.

Lemma CreateTestSqliteDB_fatal_witness :
  (CreateTestSqliteDB Scenario.unreachable TestScenario.tmp (process_start ∅)).1
    = inl "sqlite test: database or disk is full" /\
  is_Some (fs (CreateTestSqliteDB Scenario.unreachable TestScenario.tmp (process_start ∅)).2
             !! "/tmp/customers-sqlite1").
Proof.
  split; [vm_compute; reflexivity |].
  destruct (CreateTestSqliteDB_fatal Scenario.unreachable TestScenario.tmp (process_start ∅)
              "sqlite test: database or disk is full")
    as (_ & [(e & Hno & _) | (d & e & Hd & _ & _ & _ & Hdir)]).
  - vm_compute. reflexivity.
  - vm_compute in Hno. discriminate.
  - vm_compute in Hd. injection Hd as <-. exact Hdir.
Defined.

(** X15. When [CreateTestSqliteDB] returns, the directory is the one
    [ioutil.TempDir] created and it exists; the handle is not nil and was
    opened on [filepath.Join(dir, "customers.db")]; the last thing done
    was to start the Metrics Reporter of that handle; and no logger other
    than the no-op logger was called. *)
Theorem CreateTestSqliteDB_ok (P : Platform) (T : TestPlatform) (w : World)
        (h : option sql_DB) (d : string) :
  (CreateTestSqliteDB P T w).1 = inr (h, d) ->
  TempDir_result T "" "customers-sqlite" w = inr d /\
  is_Some (fs (CreateTestSqliteDB P T w).2 !! d) /\
  exists db evs,
    h = Some db /\
    db_dsn db = filepath_Join T d "customers.db" /\
    trace (CreateTestSqliteDB P T w).2 = (trace w ++ evs)%list /\
    last evs =
      Some (EvGo (metricsReporter
                    (sqliteConnection log_NewNopLogger (filepath_Join T d "customers.db"))
                    db)) /\
    Forall (logged_to log_NewNopLogger) evs.
Proof.
  rewrite CreateTestSqliteDB_unfold.
  destruct (TempDir_result T "" "customers-sqlite" w) as [e | d0]; simpl; [discriminate |].
  set (s := sqliteConnection log_NewNopLogger (filepath_Join T d0 "customers.db")).
  set (w1 := set_fs (<[d0 := Directory]> (fs w)) w).
  destruct (Connect_after_TempDir P d0 s w) as (Hdir & _). fold w1 in Hdir.
  destruct (Connect_trace P s w1) as (evs & Htr & Hct & _).
  pose proof (Connect_world P s w1) as (_ & _ & Hdb).
  destruct (Connect P s w1) as [[h0 [e|]] w']; simpl in *; intros H; [discriminate |].
  injection H as <- <-.
  split; [reflexivity | split; [exact Hdir |]].
  inversion Hct as [e He | gev e He Hgt | gev db e He Hgt
                   | gev mev db e He Hgt Hmev | gev mev db He Hgt Hmev];
    subst; clear Hct.
  destruct Hdb as [Hdb _].
  exists db. eexists. split; [reflexivity |].
  split; [rewrite Hdb; reflexivity |].
  split; [exact Htr |]. split.
  - rewrite !app_assoc.
    change [EvMigrate db None; EvGo (metricsReporter s db)]
      with ([EvMigrate db None] ++ [EvGo (metricsReporter s db)])%list.
    rewrite app_assoc. apply last_snoc.
  - assert (Hg : Forall (logged_to log_NewNopLogger) gev)
      by (inversion Hgt; repeat constructor).
    assert (Hm : Forall (logged_to log_NewNopLogger) mev).
    { eapply Forall_impl; [exact Hmev |]. intros [] Hev; simpl in *; congruence || exact I. }
    repeat first [ assumption
                 | apply List.Forall_nil
                 | apply List.Forall_cons; [exact I |]
                 | apply Forall_app; split ].
Qed.

Lemma CreateTestSqliteDB_ok_witness :
  exists db,
    (CreateTestSqliteDB Scenario.healthy TestScenario.tmp (process_start ∅)).1
      = inr (Some db, "/tmp/customers-sqlite1") /\
    db_dsn db = "/tmp/customers-sqlite1/customers.db".
Proof.
  destruct (CreateTestSqliteDB_ok Scenario.healthy TestScenario.tmp (process_start ∅)
              (Some (mkDB 0 "/tmp/customers-sqlite1/customers.db")) "/tmp/customers-sqlite1")
    as (_ & _ & db & evs & Hdb & Hdsn & _).
  - vm_compute. reflexivity.
  - exists db. split; [rewrite <- Hdb; vm_compute; reflexivity | exact Hdsn].
Defined.

Example CreateTestSqliteDB_without_tmp :
  CreateTestSqliteDB Scenario.healthy TestScenario.no_tmp (process_start ∅)
    = (inl "sqlite test: mkdir /tmp: read-only file system", process_start ∅).
Proof. vm_compute. reflexivity. Qed.

(** X16. A harness that is created and then closed leaves the file
    system as it found it, outside its own directory: when
    [CreateTestSqliteDB] returns, the handle closes and [os.RemoveAll]
    succeeds, [Close] returns nil, nothing is left at or under the
    temporary directory, and every other path, the database path apart,
    holds what it held before the harness was created. *)
Theorem harness_round_trip (P : Platform) (T : TestPlatform) (w : World)
        (db : sql_DB) (d : string) :
  let w1 := (CreateTestSqliteDB P T w).2 in
  let r := mkTestSQLiteDB db d in
  (CreateTestSqliteDB P T w).1 = inr (Some db, d) ->
  Close_result P db w1 = None ->
  RemoveAll_result P d (record (EvClose db None) w1) = None ->
  (TestSQLiteDB_Close P r w1).1 = None /\
  (forall q, within d q = true -> fs (TestSQLiteDB_Close P r w1).2 !! q = None) /\
  (forall q, within d q = false -> q <> filepath_Join T d "customers.db" ->
     fs (TestSQLiteDB_Close P r w1).2 !! q = fs w !! q).
Proof.
  intros w1 r Hcreate Hclose Hremove.
  assert (Hfs : forall q, q <> d -> q <> filepath_Join T d "customers.db" ->
                  fs w1 !! q = fs w !! q).
  { subst w1. revert Hcreate. rewrite CreateTestSqliteDB_unfold.
    destruct (TempDir_result T "" "customers-sqlite" w) as [e | d0]; simpl; [discriminate |].
    pose proof (Connect_world P
                  (sqliteConnection log_NewNopLogger (filepath_Join T d0 "customers.db"))
                  (set_fs (<[d0 := Directory]> (fs w)) w)) as (_ & [Hother _] & _).
    destruct (Connect P _ _) as [[h0 [e|]] w']; simpl in *; intros H; [discriminate |].
    injection H as -> ->. intros q Hq Hjoin.
    rewrite (Hother q Hjoin). apply lookup_insert_ne. congruence. }
  unfold TestSQLiteDB_Close. rewrite bind_run. unfold Close. simpl. rewrite Hclose.
  destruct (RemoveAll_run P d (record (EvClose db None) w1)) as (_ & Hgone & Hkept).
  assert (Hnil : (os_RemoveAll P d (record (EvClose db None) w1)).1 = None)
    by (unfold os_RemoveAll; rewrite Hremove; reflexivity).
  split; [exact Hnil | split; [exact (Hgone Hnil) |]].
  intros q Hq Hjoin. rewrite (Hkept q Hq). apply Hfs; [| exact Hjoin].
  intros ->. rewrite within_self in Hq. discriminate.
Qed.

Lemma harness_round_trip_witness :
  let w1 := (CreateTestSqliteDB Scenario.healthy TestScenario.tmp
               (process_start Scenario.harness_files)).2 in
  is_Some (fs w1 !! "/tmp/customers-sqlite1/customers.db") /\
  fs (TestSQLiteDB_Close Scenario.healthy Scenario.harness w1).2
    !! "/tmp/customers-sqlite1/customers.db" = None.
Proof.
  intros w1. split; [vm_compute; eauto |].
  apply (harness_round_trip Scenario.healthy TestScenario.tmp
           (process_start Scenario.harness_files)
           (mkDB 0 "/tmp/customers-sqlite1/customers.db") "/tmp/customers-sqlite1").
  - vm_compute. reflexivity.
  - reflexivity.
  - reflexivity.
  - vm_compute. reflexivity.
Defined.
